(** * Verification of the oax schema translator and pipeline engine

    Shallow embedding of [generateZodCodeFromSchema] and its helpers
    (src/unnamed/part_013), of the operation extractor and emitter
    ([generateOperations], [generateOperationsCode]), of [Pipeline.run]
    (src/packages/cli/src/config.ts) and of the dependency checks of the
    built-in steps (zod-generator.ts, validator-pipeline in part_010). *)

From Stdlib Require Import Ascii String.
From stdpp Require Import base list gmap strings.

Local Open Scope stdpp_scope.
Set Warnings "-register-all".

(* ===================================================================== *)
(** ** JavaScript values *)

(** Characters that can occur in [String(x)] for a finite number [x]
    parsed from JSON: digits, sign, decimal point and exponent. *)
Definition is_num_char (c : ascii) : bool :=
  match c with
  | "0"%char | "1"%char | "2"%char | "3"%char | "4"%char | "5"%char
  | "6"%char | "7"%char | "8"%char | "9"%char
  | "."%char | "-"%char | "+"%char | "e"%char => true
  | _ => false
  end.

Fixpoint numeric_text (s : string) : bool :=
  match s with
  | EmptyString => false
  | String c EmptyString => is_num_char c
  | String c r => is_num_char c && numeric_text r
  end.

(** A JSON number, represented by the text [`${x}`] gives for it. *)
Record jsnum := mknum { num_text : string; num_text_ok : numeric_text num_text = true }.

(** Template interpolation [`${x}`] of a number. *)
Definition show_num (n : jsnum) : string := num_text n.

(** Truthiness of an optional string field ([if (schema.format)]):
    [undefined] and [""] are falsy. *)
Definition truthy_str (o : option string) : option string :=
  match o with
  | Some s => if String.eqb s "" then None else Some s
  | None => None
  end.

Definition dq : string := String (Ascii.ascii_of_nat 34) EmptyString.
Definition nl : string := String (Ascii.ascii_of_nat 10) EmptyString.

(** [arr.join(sep)] *)
Fixpoint join (sep : string) (l : list string) : string :=
  match l with
  | [] => ""
  | [x] => x
  | x :: r => x +:+ sep +:+ join sep r
  end.

(** [s.split("/").pop()] *)
Fixpoint last_segment_acc (acc : string) (s : string) : string :=
  match s with
  | EmptyString => acc
  | String c r =>
      if Ascii.eqb c "/"%char then last_segment_acc "" r
      else last_segment_acc (acc +:+ String c EmptyString) r
  end.
Definition last_segment (s : string) : string := last_segment_acc "" s.

(* ===================================================================== *)
(** ** Schema objects *)

(** [exclusiveMinimum]/[exclusiveMaximum]: boolean (OAS 3.0) or numeric
    (legacy/JSON Schema) convention; any other JSON value is neither
    [=== true] nor [typeof ... === "number"]. *)
Inductive excl :=
| ExclBool (b : bool)
| ExclNum (n : jsnum)
| ExclOther.

(** The fields of an already-dereferenced [SchemaObject] that the
    translator reads; [None] is an absent ([undefined]) field. Arrays are
    truthy even when empty, so [Some []] is a present field. Properties
    are listed in [Object.entries] order. *)
Inductive schema := Schema {
  s_ref : option string;
  s_allOf : option (list schema);
  s_anyOf : option (list schema);
  s_oneOf : option (list schema);
  s_discriminator : option string;  (* discriminator.propertyName *)
  s_nullable : option bool;
  s_type : option string;
  s_enum : option (list string);
  s_format : option string;
  s_minLength : option jsnum;
  s_maxLength : option jsnum;
  s_pattern : option string;
  s_minimum : option jsnum;
  s_exclusiveMinimum : option excl;
  s_maximum : option jsnum;
  s_exclusiveMaximum : option excl;
  s_multipleOf : option jsnum;
  s_items : option schema;
  s_minItems : option jsnum;
  s_maxItems : option jsnum;
  s_uniqueItems : option bool;
  s_properties : option (list (string * schema));
  s_required : option (list string);
  s_additionalProperties : option (bool + schema);  (* boolean or schema *)
  s_minProperties : option jsnum;
  s_maxProperties : option jsnum;
  s_deprecated : option bool
}.

(** The empty schema object [{}]. *)
Definition empty_schema : schema :=
  Schema None None None None None None None None None None None None
         None None None None None None None None None None None None
         None None None.


(** Field updates [{ ...s, f: v }] on schema objects. *)
Definition with_ref (v : option string) (s : schema) : schema :=
  match s with Schema a0 a1 a2 a3 a4 a5 a6 a7 a8 a9 a10 a11 a12 a13 a14 a15 a16 a17 a18 a19 a20 a21 a22 a23 a24 a25 a26 => Schema v a1 a2 a3 a4 a5 a6 a7 a8 a9 a10 a11 a12 a13 a14 a15 a16 a17 a18 a19 a20 a21 a22 a23 a24 a25 a26 end.
Definition with_allOf (v : option (list schema)) (s : schema) : schema :=
  match s with Schema a0 a1 a2 a3 a4 a5 a6 a7 a8 a9 a10 a11 a12 a13 a14 a15 a16 a17 a18 a19 a20 a21 a22 a23 a24 a25 a26 => Schema a0 v a2 a3 a4 a5 a6 a7 a8 a9 a10 a11 a12 a13 a14 a15 a16 a17 a18 a19 a20 a21 a22 a23 a24 a25 a26 end.
Definition with_anyOf (v : option (list schema)) (s : schema) : schema :=
  match s with Schema a0 a1 a2 a3 a4 a5 a6 a7 a8 a9 a10 a11 a12 a13 a14 a15 a16 a17 a18 a19 a20 a21 a22 a23 a24 a25 a26 => Schema a0 a1 v a3 a4 a5 a6 a7 a8 a9 a10 a11 a12 a13 a14 a15 a16 a17 a18 a19 a20 a21 a22 a23 a24 a25 a26 end.
Definition with_oneOf (v : option (list schema)) (s : schema) : schema :=
  match s with Schema a0 a1 a2 a3 a4 a5 a6 a7 a8 a9 a10 a11 a12 a13 a14 a15 a16 a17 a18 a19 a20 a21 a22 a23 a24 a25 a26 => Schema a0 a1 a2 v a4 a5 a6 a7 a8 a9 a10 a11 a12 a13 a14 a15 a16 a17 a18 a19 a20 a21 a22 a23 a24 a25 a26 end.
Definition with_discriminator (v : option string) (s : schema) : schema :=
  match s with Schema a0 a1 a2 a3 a4 a5 a6 a7 a8 a9 a10 a11 a12 a13 a14 a15 a16 a17 a18 a19 a20 a21 a22 a23 a24 a25 a26 => Schema a0 a1 a2 a3 v a5 a6 a7 a8 a9 a10 a11 a12 a13 a14 a15 a16 a17 a18 a19 a20 a21 a22 a23 a24 a25 a26 end.
Definition with_nullable (v : option bool) (s : schema) : schema :=
  match s with Schema a0 a1 a2 a3 a4 a5 a6 a7 a8 a9 a10 a11 a12 a13 a14 a15 a16 a17 a18 a19 a20 a21 a22 a23 a24 a25 a26 => Schema a0 a1 a2 a3 a4 v a6 a7 a8 a9 a10 a11 a12 a13 a14 a15 a16 a17 a18 a19 a20 a21 a22 a23 a24 a25 a26 end.
Definition with_type (v : option string) (s : schema) : schema :=
  match s with Schema a0 a1 a2 a3 a4 a5 a6 a7 a8 a9 a10 a11 a12 a13 a14 a15 a16 a17 a18 a19 a20 a21 a22 a23 a24 a25 a26 => Schema a0 a1 a2 a3 a4 a5 v a7 a8 a9 a10 a11 a12 a13 a14 a15 a16 a17 a18 a19 a20 a21 a22 a23 a24 a25 a26 end.
Definition with_enum (v : option (list string)) (s : schema) : schema :=
  match s with Schema a0 a1 a2 a3 a4 a5 a6 a7 a8 a9 a10 a11 a12 a13 a14 a15 a16 a17 a18 a19 a20 a21 a22 a23 a24 a25 a26 => Schema a0 a1 a2 a3 a4 a5 a6 v a8 a9 a10 a11 a12 a13 a14 a15 a16 a17 a18 a19 a20 a21 a22 a23 a24 a25 a26 end.
Definition with_format (v : option string) (s : schema) : schema :=
  match s with Schema a0 a1 a2 a3 a4 a5 a6 a7 a8 a9 a10 a11 a12 a13 a14 a15 a16 a17 a18 a19 a20 a21 a22 a23 a24 a25 a26 => Schema a0 a1 a2 a3 a4 a5 a6 a7 v a9 a10 a11 a12 a13 a14 a15 a16 a17 a18 a19 a20 a21 a22 a23 a24 a25 a26 end.
Definition with_minLength (v : option jsnum) (s : schema) : schema :=
  match s with Schema a0 a1 a2 a3 a4 a5 a6 a7 a8 a9 a10 a11 a12 a13 a14 a15 a16 a17 a18 a19 a20 a21 a22 a23 a24 a25 a26 => Schema a0 a1 a2 a3 a4 a5 a6 a7 a8 v a10 a11 a12 a13 a14 a15 a16 a17 a18 a19 a20 a21 a22 a23 a24 a25 a26 end.
Definition with_maxLength (v : option jsnum) (s : schema) : schema :=
  match s with Schema a0 a1 a2 a3 a4 a5 a6 a7 a8 a9 a10 a11 a12 a13 a14 a15 a16 a17 a18 a19 a20 a21 a22 a23 a24 a25 a26 => Schema a0 a1 a2 a3 a4 a5 a6 a7 a8 a9 v a11 a12 a13 a14 a15 a16 a17 a18 a19 a20 a21 a22 a23 a24 a25 a26 end.
Definition with_pattern (v : option string) (s : schema) : schema :=
  match s with Schema a0 a1 a2 a3 a4 a5 a6 a7 a8 a9 a10 a11 a12 a13 a14 a15 a16 a17 a18 a19 a20 a21 a22 a23 a24 a25 a26 => Schema a0 a1 a2 a3 a4 a5 a6 a7 a8 a9 a10 v a12 a13 a14 a15 a16 a17 a18 a19 a20 a21 a22 a23 a24 a25 a26 end.
Definition with_minimum (v : option jsnum) (s : schema) : schema :=
  match s with Schema a0 a1 a2 a3 a4 a5 a6 a7 a8 a9 a10 a11 a12 a13 a14 a15 a16 a17 a18 a19 a20 a21 a22 a23 a24 a25 a26 => Schema a0 a1 a2 a3 a4 a5 a6 a7 a8 a9 a10 a11 v a13 a14 a15 a16 a17 a18 a19 a20 a21 a22 a23 a24 a25 a26 end.
Definition with_exclusiveMinimum (v : option excl) (s : schema) : schema :=
  match s with Schema a0 a1 a2 a3 a4 a5 a6 a7 a8 a9 a10 a11 a12 a13 a14 a15 a16 a17 a18 a19 a20 a21 a22 a23 a24 a25 a26 => Schema a0 a1 a2 a3 a4 a5 a6 a7 a8 a9 a10 a11 a12 v a14 a15 a16 a17 a18 a19 a20 a21 a22 a23 a24 a25 a26 end.
Definition with_maximum (v : option jsnum) (s : schema) : schema :=
  match s with Schema a0 a1 a2 a3 a4 a5 a6 a7 a8 a9 a10 a11 a12 a13 a14 a15 a16 a17 a18 a19 a20 a21 a22 a23 a24 a25 a26 => Schema a0 a1 a2 a3 a4 a5 a6 a7 a8 a9 a10 a11 a12 a13 v a15 a16 a17 a18 a19 a20 a21 a22 a23 a24 a25 a26 end.
Definition with_exclusiveMaximum (v : option excl) (s : schema) : schema :=
  match s with Schema a0 a1 a2 a3 a4 a5 a6 a7 a8 a9 a10 a11 a12 a13 a14 a15 a16 a17 a18 a19 a20 a21 a22 a23 a24 a25 a26 => Schema a0 a1 a2 a3 a4 a5 a6 a7 a8 a9 a10 a11 a12 a13 a14 v a16 a17 a18 a19 a20 a21 a22 a23 a24 a25 a26 end.
Definition with_multipleOf (v : option jsnum) (s : schema) : schema :=
  match s with Schema a0 a1 a2 a3 a4 a5 a6 a7 a8 a9 a10 a11 a12 a13 a14 a15 a16 a17 a18 a19 a20 a21 a22 a23 a24 a25 a26 => Schema a0 a1 a2 a3 a4 a5 a6 a7 a8 a9 a10 a11 a12 a13 a14 a15 v a17 a18 a19 a20 a21 a22 a23 a24 a25 a26 end.
Definition with_items (v : option schema) (s : schema) : schema :=
  match s with Schema a0 a1 a2 a3 a4 a5 a6 a7 a8 a9 a10 a11 a12 a13 a14 a15 a16 a17 a18 a19 a20 a21 a22 a23 a24 a25 a26 => Schema a0 a1 a2 a3 a4 a5 a6 a7 a8 a9 a10 a11 a12 a13 a14 a15 a16 v a18 a19 a20 a21 a22 a23 a24 a25 a26 end.
Definition with_minItems (v : option jsnum) (s : schema) : schema :=
  match s with Schema a0 a1 a2 a3 a4 a5 a6 a7 a8 a9 a10 a11 a12 a13 a14 a15 a16 a17 a18 a19 a20 a21 a22 a23 a24 a25 a26 => Schema a0 a1 a2 a3 a4 a5 a6 a7 a8 a9 a10 a11 a12 a13 a14 a15 a16 a17 v a19 a20 a21 a22 a23 a24 a25 a26 end.
Definition with_maxItems (v : option jsnum) (s : schema) : schema :=
  match s with Schema a0 a1 a2 a3 a4 a5 a6 a7 a8 a9 a10 a11 a12 a13 a14 a15 a16 a17 a18 a19 a20 a21 a22 a23 a24 a25 a26 => Schema a0 a1 a2 a3 a4 a5 a6 a7 a8 a9 a10 a11 a12 a13 a14 a15 a16 a17 a18 v a20 a21 a22 a23 a24 a25 a26 end.
Definition with_uniqueItems (v : option bool) (s : schema) : schema :=
  match s with Schema a0 a1 a2 a3 a4 a5 a6 a7 a8 a9 a10 a11 a12 a13 a14 a15 a16 a17 a18 a19 a20 a21 a22 a23 a24 a25 a26 => Schema a0 a1 a2 a3 a4 a5 a6 a7 a8 a9 a10 a11 a12 a13 a14 a15 a16 a17 a18 a19 v a21 a22 a23 a24 a25 a26 end.
Definition with_properties (v : option (list (string * schema))) (s : schema) : schema :=
  match s with Schema a0 a1 a2 a3 a4 a5 a6 a7 a8 a9 a10 a11 a12 a13 a14 a15 a16 a17 a18 a19 a20 a21 a22 a23 a24 a25 a26 => Schema a0 a1 a2 a3 a4 a5 a6 a7 a8 a9 a10 a11 a12 a13 a14 a15 a16 a17 a18 a19 a20 v a22 a23 a24 a25 a26 end.
Definition with_required (v : option (list string)) (s : schema) : schema :=
  match s with Schema a0 a1 a2 a3 a4 a5 a6 a7 a8 a9 a10 a11 a12 a13 a14 a15 a16 a17 a18 a19 a20 a21 a22 a23 a24 a25 a26 => Schema a0 a1 a2 a3 a4 a5 a6 a7 a8 a9 a10 a11 a12 a13 a14 a15 a16 a17 a18 a19 a20 a21 v a23 a24 a25 a26 end.
Definition with_additionalProperties (v : option (bool + schema)) (s : schema) : schema :=
  match s with Schema a0 a1 a2 a3 a4 a5 a6 a7 a8 a9 a10 a11 a12 a13 a14 a15 a16 a17 a18 a19 a20 a21 a22 a23 a24 a25 a26 => Schema a0 a1 a2 a3 a4 a5 a6 a7 a8 a9 a10 a11 a12 a13 a14 a15 a16 a17 a18 a19 a20 a21 a22 v a24 a25 a26 end.
Definition with_minProperties (v : option jsnum) (s : schema) : schema :=
  match s with Schema a0 a1 a2 a3 a4 a5 a6 a7 a8 a9 a10 a11 a12 a13 a14 a15 a16 a17 a18 a19 a20 a21 a22 a23 a24 a25 a26 => Schema a0 a1 a2 a3 a4 a5 a6 a7 a8 a9 a10 a11 a12 a13 a14 a15 a16 a17 a18 a19 a20 a21 a22 a23 v a25 a26 end.
Definition with_maxProperties (v : option jsnum) (s : schema) : schema :=
  match s with Schema a0 a1 a2 a3 a4 a5 a6 a7 a8 a9 a10 a11 a12 a13 a14 a15 a16 a17 a18 a19 a20 a21 a22 a23 a24 a25 a26 => Schema a0 a1 a2 a3 a4 a5 a6 a7 a8 a9 a10 a11 a12 a13 a14 a15 a16 a17 a18 a19 a20 a21 a22 a23 a24 v a26 end.
Definition with_deprecated (v : option bool) (s : schema) : schema :=
  match s with Schema a0 a1 a2 a3 a4 a5 a6 a7 a8 a9 a10 a11 a12 a13 a14 a15 a16 a17 a18 a19 a20 a21 a22 a23 a24 a25 a26 => Schema a0 a1 a2 a3 a4 a5 a6 a7 a8 a9 a10 a11 a12 a13 a14 a15 a16 a17 a18 a19 a20 a21 a22 a23 a24 a25 v end.

(* ===================================================================== *)
(** ** The schema translator *)

(** Translation may throw: [allOf: []] makes [schemas.reduce] (with no
    initial value) raise a [TypeError]; [None] is that exception, which
    propagates through every enclosing call. *)
Notation "x <- m ; k" := (match m with Some x => k | None => None end)
  (at level 100, m at next level, right associativity, only parsing).

(** The recursive call applied to an array of member schemas
    ([schemas.map((s) => generateZodCodeFromSchema(s))]). *)
Fixpoint map_opt {A B} (f : A -> option B) (l : list A) : option (list B) :=
  match l with
  | [] => Some []
  | x :: r => y <- f x; ys <- map_opt f r; Some (y :: ys)
  end.

(** [generateStringSchema] *)
Definition string_format_schema (fmt : string) (z : string) : string + string :=
  (* inl: the early [return]; inr: the schema built so far *)
  if String.eqb fmt "date-time" then inl "z.iso.datetime()"
  else if String.eqb fmt "date" then inr (z +:+ ".date()")
  else if String.eqb fmt "time" then inr (z +:+ ".time()")
  else if String.eqb fmt "email" then inl "z.email()"
  else if String.eqb fmt "uri" then inl "z.url()"
  else if String.eqb fmt "url" then inl "z.url()"
  else if String.eqb fmt "uuid" then inr (z +:+ ".uuid()")
  else if String.eqb fmt "ipv4" then inr (z +:+ ".ip({ version: 'v4' })")
  else if String.eqb fmt "ipv6" then inr (z +:+ ".ip({ version: 'v6' })")
  else inr z.

(** [pattern.replace(/\\/g, "\\\\").replace(/\//g, "\\/")] *)
Fixpoint escape_pattern (p : string) : string :=
  match p with
  | EmptyString => EmptyString
  | String c r =>
      if Ascii.eqb c "\"%char then String "\"%char (String "\"%char (escape_pattern r))
      else if Ascii.eqb c "/"%char then String "\"%char (String "/"%char (escape_pattern r))
      else String c (escape_pattern r)
  end.

Definition string_constraints (s : schema) (z : string) : string :=
  let z := match s_minLength s with Some n => z +:+ ".min(" +:+ show_num n +:+ ")" | None => z end in
  let z := match s_maxLength s with Some n => z +:+ ".max(" +:+ show_num n +:+ ")" | None => z end in
  match truthy_str (s_pattern s) with
  | Some p => z +:+ ".regex(/" +:+ escape_pattern p +:+ "/)"
  | None => z
  end.

Definition enum_literal (vals : list string) : string :=
  "z.enum([" +:+ join ", " (map (fun v => "'" +:+ v +:+ "'") vals) +:+ "])".

Definition generateStringSchema (s : schema) : string :=
  let z := "z.string()" in
  match s_enum s with
  | Some vals => enum_literal vals
  | None =>
      match truthy_str (s_format s) with
      | Some fmt =>
          match string_format_schema fmt z with
          | inl r => r
          | inr z => string_constraints s z
          end
      | None => string_constraints s z
      end
  end.

(** The bound chain shared by [generateNumberSchema] and
    [generateIntegerSchema] (their bodies are identical after the base). *)
Definition numeric_constraints (s : schema) (z : string) : string :=
  let z := match s_minimum s with
           | Some m =>
               match s_exclusiveMinimum s with
               | Some (ExclBool true) => z +:+ ".gt(" +:+ show_num m +:+ ")"
               | _ => z +:+ ".gte(" +:+ show_num m +:+ ")"
               end
           | None => z
           end in
  let z := match s_exclusiveMinimum s with
           | Some (ExclNum e) => z +:+ ".gt(" +:+ show_num e +:+ ")"
           | _ => z
           end in
  let z := match s_maximum s with
           | Some m =>
               match s_exclusiveMaximum s with
               | Some (ExclBool true) => z +:+ ".lt(" +:+ show_num m +:+ ")"
               | _ => z +:+ ".lte(" +:+ show_num m +:+ ")"
               end
           | None => z
           end in
  let z := match s_exclusiveMaximum s with
           | Some (ExclNum e) => z +:+ ".lt(" +:+ show_num e +:+ ")"
           | _ => z
           end in
  match s_multipleOf s with
  | Some k => z +:+ ".multipleOf(" +:+ show_num k +:+ ")"
  | None => z
  end.

Definition generateNumberSchema (s : schema) : string :=
  numeric_constraints s "z.number()".

Definition generateIntegerSchema (s : schema) : string :=
  numeric_constraints s "z.number().int()".

Definition unique_refine_text : string :=
  ".refine((items) => new Set(items).size === items.length, { message: "
  +:+ dq +:+ "Items must be unique" +:+ dq +:+ " })".

(** [generateArraySchema], given the recursive translator [tr]. *)
Definition generateArraySchema (tr : schema -> option string) (s : schema) : option string :=
  itemSchema <- (match s_items s with Some it => tr it | None => Some "z.any()" end);
  let z := "z.array(" +:+ itemSchema +:+ ")" in
  let z := match s_minItems s with Some n => z +:+ ".min(" +:+ show_num n +:+ ")" | None => z end in
  let z := match s_maxItems s with Some n => z +:+ ".max(" +:+ show_num n +:+ ")" | None => z end in
  Some (match s_uniqueItems s with Some true => z +:+ unique_refine_text | _ => z end).

(** [schema.required?.includes(name) || false] *)
Definition is_required (s : schema) (name : string) : bool :=
  match s_required s with
  | Some r => bool_decide (name ∈ r)
  | None => false
  end.

(** One entry of the [properties] map, given the code of its schema. *)
Definition property_entry (s : schema) (name : string) (prop : schema) (zodCode : string) : string :=
  let optionalSuffix := if is_required s name then "" else ".optional()" in
  match s_deprecated prop with
  | Some true => name +:+ ": " +:+ zodCode +:+ optionalSuffix +:+ " /* @deprecated */"
  | _ => name +:+ ": " +:+ zodCode +:+ optionalSuffix
  end.

Definition object_count_refines (s : schema) (z : string) : string :=
  let z := match s_minProperties s with
           | Some n => z +:+ ".refine((obj) => Object.keys(obj).length >= " +:+ show_num n
                         +:+ ", { message: " +:+ dq +:+ "Object must have at least "
                         +:+ show_num n +:+ " properties" +:+ dq +:+ " })"
           | None => z end in
  match s_maxProperties s with
  | Some n => z +:+ ".refine((obj) => Object.keys(obj).length <= " +:+ show_num n
                +:+ ", { message: " +:+ dq +:+ "Object must have at most "
                +:+ show_num n +:+ " properties" +:+ dq +:+ " })"
  | None => z
  end.

(** [generateObjectSchema], given the recursive translator [tr]. *)
Definition generateObjectSchema (tr : schema -> option string) (s : schema) : option string :=
  match s_properties s with
  | None =>
      match s_additionalProperties s with
      | Some (inl false) => Some "z.object({}).strict()"
      | Some (inl true) | None => Some "z.record(z.string(), z.any())"
      | Some (inr v) => valueSchema <- tr v; Some ("z.record(z.string(), " +:+ valueSchema +:+ ")")
      end
  | Some props =>
      codes <- map_opt (fun '(name, prop) =>
                          zodCode <- tr prop; Some (property_entry s name prop zodCode)) props;
      let z := "z.object({ " +:+ join ", " codes +:+ " })" in
      let z := match s_additionalProperties s with
               | Some (inl false) => z +:+ ".strict()"
               | Some (inl true) => z +:+ ".passthrough()"
               | Some (inr _) => z +:+ ".passthrough() /* additional properties allowed */"
               | None => z
               end in
      Some (object_count_refines s z)
  end.

Definition generateBaseZodSchema (tr : schema -> option string) (s : schema) : option string :=
  match s_type s with
  | Some "string" => Some (generateStringSchema s)
  | Some "number" => Some (generateNumberSchema s)
  | Some "integer" => Some (generateIntegerSchema s)
  | Some "boolean" => Some "z.boolean()"
  | Some "array" => generateArraySchema tr s
  | Some "object" => generateObjectSchema tr s
  | _ => Some "z.any()"
  end%string.

Definition intersect_all (first : string) (rest : list string) : string :=
  fold_left (fun acc curr => "z.intersection(" +:+ acc +:+ ", " +:+ curr +:+ ")") rest first.

Fixpoint generateZodCodeFromSchema (s : schema) : option string :=
  match s_ref s with
  | Some r =>
      let refName := last_segment r in
      Some (if String.eqb refName "" then "z.any()" else refName)
  | None =>
  match s_allOf s with
  | Some l =>
      schemas <- map_opt generateZodCodeFromSchema l;
      match schemas with
      | [] => None
      | [x] => Some x
      | x :: rest => Some (intersect_all x rest)
      end
  | None =>
  match s_anyOf s with
  | Some l =>
      schemas <- map_opt generateZodCodeFromSchema l;
      Some ("z.union([" +:+ join ", " schemas +:+ "])")
  | None =>
  match s_oneOf s with
  | Some l =>
      schemas <- map_opt generateZodCodeFromSchema l;
      match s_discriminator s with
      | Some d => Some ("z.discriminatedUnion(" +:+ dq +:+ d +:+ dq +:+ ", ["
                         +:+ join ", " schemas +:+ "])")
      | None => Some ("z.union([" +:+ join ", " schemas +:+ "])")
      end
  | None =>
      let isNullable := match s_nullable s with Some true => true | _ => false end in
      baseSchema <- generateBaseZodSchema generateZodCodeFromSchema s;
      Some (if isNullable then baseSchema +:+ ".nullable()" else baseSchema)
  end end end end.

(** [generateZodCodeFromSchema(x)] on a possibly absent schema
    ([if (!schema) return "z.any()"]). *)
Definition generateZodCodeFromOptSchema (o : option schema) : option string :=
  match o with
  | Some s => generateZodCodeFromSchema s
  | None => Some "z.any()"
  end.

(* ===================================================================== *)
(** ** Components and operations *)

(** [for (const [name, schema] of Object.entries(oas.components.schemas))]:
    reference objects are skipped. *)
Record ZodSchemaInfo := { zi_name : string; zi_zodCode : string }.

Definition generateZodSchemas (components : option (list (string * schema)))
    : option (list ZodSchemaInfo) :=
  match components with
  | None => Some []
  | Some cs =>
      map_opt (fun '(name, s) =>
                 zodCode <- generateZodCodeFromSchema s;
                 Some {| zi_name := name; zi_zodCode := zodCode |})
              (List.filter (fun '(_, s) => match s_ref s with Some _ => false | None => true end) cs)
  end.

Record ParameterObject := {
  po_name : string;
  po_in : string;
  po_required : option bool;
  po_schema : option schema
}.

Inductive param_or_ref :=
| ParamRef (r : string)
| ParamObj (p : ParameterObject).

(** A [content] map: media type to the [schema] of its media-type object. *)
Definition content_map := list (string * option schema).

Record RequestBodyObject := { rb_content : option content_map; rb_required : option bool }.

Inductive body_or_ref :=
| BodyRef (r : string)
| BodyObj (b : RequestBodyObject).

Record ResponseObject := { ro_description : option string; ro_content : option content_map }.

Inductive response_or_ref :=
| RespRef (r : string)
| RespObj (o : ResponseObject).

Record OperationObject := {
  op_operationId : option string;
  op_parameters : option (list param_or_ref);
  op_requestBody : option body_or_ref;
  op_responses : option (list (string * response_or_ref));
  op_summary : option string;
  op_description : option string
}.

(** A path item, as the map from its keys to operation objects. *)
Definition path_item := list (string * OperationObject).

Record Document := {
  doc_paths : option (list (string * option path_item));
  doc_components_schemas : option (list (string * schema))
}.

(** [obj[key]] on a JSON object listed by its (distinct) keys. *)
Fixpoint assoc {A} (k : string) (l : list (string * A)) : option A :=
  match l with
  | [] => None
  | (k', v) :: r => if String.eqb k k' then Some v else assoc k r
  end.

Record SchemaReference := { sr_zodCode : string; sr_required : bool }.

Record ParameterInfo := {
  pi_name : string;
  pi_in : string;
  pi_required : bool;
  pi_schema : SchemaReference
}.

Record ResponseInfo := {
  ri_status : string;
  ri_description : option string;
  ri_schema : option SchemaReference
}.

Record OperationInfo := {
  oi_operationId : string;
  oi_method : string;
  oi_path : string;
  oi_parameters : list ParameterInfo;
  oi_requestBody : option SchemaReference;
  oi_responses : list ResponseInfo;
  oi_summary : option string;
  oi_description : option string
}.

Definition methods : list string := ["get"; "post"; "put"; "delete"; "patch"; "head"; "options"].

Definition is_alnum (c : ascii) : bool :=
  let n := Ascii.nat_of_ascii c in
  (Nat.leb 48 n && Nat.leb n 57) || (Nat.leb 65 n && Nat.leb n 90) || (Nat.leb 97 n && Nat.leb n 122).

(** [pathTemplate.replace(/[^a-zA-Z0-9]/g, "")] *)
Fixpoint strip_non_alnum (p : string) : string :=
  match p with
  | EmptyString => EmptyString
  | String c r => if is_alnum c then String c (strip_non_alnum r) else strip_non_alnum r
  end.

(** The [parameters] loop: reference objects are skipped. *)
Definition extract_parameters (ps : list param_or_ref) : option (list ParameterInfo) :=
  map_opt (fun x => x) (omap (fun p =>
    match p with
    | ParamRef _ => None
    | ParamObj po =>
        let req := default false (po_required po) in
        Some (zodCode <- generateZodCodeFromOptSchema (po_schema po);
              Some {| pi_name := po_name po; pi_in := po_in po; pi_required := req;
                      pi_schema := {| sr_zodCode := zodCode; sr_required := req |} |})
    end) ps).

Definition json_schema (c : option content_map) : option schema :=
  match c with
  | Some m => match assoc "application/json" m with Some (Some s) => Some s | _ => None end
  | None => None
  end.

Definition extract_requestBody (b : option body_or_ref) : option (option SchemaReference) :=
  match b with
  | Some (BodyObj rb) =>
      match json_schema (rb_content rb) with
      | Some s => zodCode <- generateZodCodeFromSchema s;
                  Some (Some {| sr_zodCode := zodCode; sr_required := default false (rb_required rb) |})
      | None => Some None
      end
  | _ => Some None
  end.

Definition extract_responses (rs : list (string * response_or_ref)) : option (list ResponseInfo) :=
  map_opt (fun x => x) (omap (fun '(status, r) =>
    match r with
    | RespRef _ => None
    | RespObj ro =>
        Some (sch <- (match json_schema (ro_content ro) with
                      | Some s => zodCode <- generateZodCodeFromSchema s;
                                  Some (Some {| sr_zodCode := zodCode; sr_required := true |})
                      | None => Some None
                      end);
              Some {| ri_status := status; ri_description := truthy_str (ro_description ro);
                      ri_schema := sch |})
    end) rs).

(** The body of the method loop of [generateOperations]. *)
Definition operation_info (pathTemplate method : string) (op : OperationObject) : option OperationInfo :=
  let operationId :=
    match truthy_str (op_operationId op) with
    | Some i => i
    | None => method +:+ strip_non_alnum pathTemplate
    end in
  parameters <- extract_parameters (default [] (op_parameters op));
  requestBody <- extract_requestBody (op_requestBody op);
  responses <- extract_responses (default [] (op_responses op));
  Some {| oi_operationId := operationId; oi_method := method; oi_path := pathTemplate;
          oi_parameters := parameters; oi_requestBody := requestBody;
          oi_responses := responses; oi_summary := truthy_str (op_summary op);
          oi_description := truthy_str (op_description op) |}.

Definition path_operations (pathTemplate : string) (item : path_item) : option (list OperationInfo) :=
  map_opt (fun x => x) (omap (fun method =>
    match assoc method item with
    | Some op => Some (operation_info pathTemplate method op)
    | None => None
    end) methods).

Definition generateOperations (oas : Document) : option (list OperationInfo) :=
  match doc_paths oas with
  | None => Some []
  | Some ps =>
      ls <- map_opt (fun '(pathTemplate, item) =>
                       match item with
                       | Some it => path_operations pathTemplate it
                       | None => Some []
                       end) ps;
      Some (concat ls)
  end.

(** [generateParamObject] inside [generateOperationsCode]. *)
Definition generateParamObject (params : list ParameterInfo) : string :=
  match params with
  | [] => "z.object({})"
  | _ =>
      let properties :=
        join ", " (map (fun p => pi_name p +:+ ": " +:+ sr_zodCode (pi_schema p)
                                 +:+ (if pi_required p then "" else ".optional()")) params) in
      "z.object({ " +:+ properties +:+ " })"
  end.

Definition params_in (loc : string) (ps : list ParameterInfo) : list ParameterInfo :=
  List.filter (fun p => String.eqb (pi_in p) loc) ps.

Definition quoted_or_undefined (o : option string) : string :=
  match o with Some s => "'" +:+ s +:+ "'" | None => "undefined" end.

Definition bool_text (b : bool) : string := if b then "true" else "false".

Definition response_code (r : ResponseInfo) : string :=
  nl +:+ "    '" +:+ ri_status r +:+ "': {" +:+ nl
  +:+ "      description: " +:+ quoted_or_undefined (ri_description r) +:+ "," +:+ nl
  +:+ "      schema: " +:+ (match ri_schema r with Some sc => sr_zodCode sc | None => "z.void()" end)
  +:+ nl +:+ "    }".

Definition operation_code (op : OperationInfo) : string :=
  let pathParamsCode := generateParamObject (params_in "path" (oi_parameters op)) in
  let queryParamsCode := generateParamObject (params_in "query" (oi_parameters op)) in
  let headerParamsCode := generateParamObject (params_in "header" (oi_parameters op)) in
  let requestBodyCode :=
    match oi_requestBody op with
    | Some rb => "requestBody: { schema: " +:+ sr_zodCode rb +:+ ", required: "
                   +:+ bool_text (sr_required rb) +:+ " },"
    | None => ""
    end in
  let responsesCode := join "," (map response_code (oi_responses op)) in
  nl +:+ "  '" +:+ oi_operationId op +:+ "': {" +:+ nl
  +:+ "    method: '" +:+ oi_method op +:+ "'," +:+ nl
  +:+ "    path: '" +:+ oi_path op +:+ "'," +:+ nl
  +:+ "    operationId: '" +:+ oi_operationId op +:+ "'," +:+ nl
  +:+ "    summary: " +:+ quoted_or_undefined (oi_summary op) +:+ "," +:+ nl
  +:+ "    description: " +:+ quoted_or_undefined (oi_description op) +:+ "," +:+ nl
  +:+ "    params: " +:+ pathParamsCode +:+ "," +:+ nl
  +:+ "    queries: " +:+ queryParamsCode +:+ "," +:+ nl
  +:+ "    headers: " +:+ headerParamsCode +:+ "," +:+ nl
  +:+ "    " +:+ requestBodyCode +:+ nl
  +:+ "    responses: {" +:+ responsesCode +:+ nl
  +:+ "    }" +:+ nl
  +:+ "  }".

Definition generateOperationsCode (operations : list OperationInfo) : string :=
  "export const operations = {" +:+ join "," (map operation_code operations) +:+ nl
  +:+ "} as const;" +:+ nl +:+ nl
  +:+ "export type Operations = typeof operations;".

(* ===================================================================== *)
(** ** The pipeline engine *)

(** JSON values carried as step contents and metadata. *)
Inductive jsval :=
| JUndef
| JNull
| JBool (b : bool)
| JNum (n : jsnum)
| JStr (s : string)
| JArr (l : list jsval)
| JObj (l : list (string * jsval)).

(** JavaScript truthiness ([!x] is its negation). [String(x)] is ["0"]
    for both zeros; [NaN] does not come from JSON. *)
Definition truthy (v : jsval) : bool :=
  match v with
  | JUndef | JNull => false
  | JBool b => b
  | JNum n => negb (String.eqb (num_text n) "0")
  | JStr s => negb (String.eqb s "")
  | JArr _ | JObj _ => true
  end.

Record StepInput := { si_name : string; si_content : jsval }.

Record StepOutput := {
  so_name : string;
  so_content : jsval;
  so_meta : option (list (string * jsval))
}.

Record StepContext := {
  ctx_inputs : gmap string StepInput;
  ctx_outputDir : string;
  ctx_previousOutputs : gmap string StepOutput
}.

(** A thrown error, by its message. *)
Definition js_error := string.

(** A step; [step_process] either throws ([inl]) or resolves ([inr]). *)
Record Step := {
  step_name : string;
  step_input : option string;
  step_outputFile : option string;
  step_process : StepContext -> js_error + StepOutput
}.

Record PipelineConfig := {
  cfg_outputDir : option string;
  cfg_input : option string;
  cfg_steps : list Step
}.

(** A [Pipeline] instance: its configuration and its [outputs] field. *)
Record Pipeline := { pl_config : PipelineConfig; pl_outputs : gmap string StepOutput }.

(** [new Pipeline(config)]: [private outputs = {}]. *)
Definition new_Pipeline (cfg : PipelineConfig) : Pipeline :=
  {| pl_config := cfg; pl_outputs := ∅ |}.

(** The host functions [run] calls: [path.resolve(process.cwd(), _)],
    [path.join], [path.extname(_).toLowerCase()], [new Date().toISOString()]
    at the n-th call, [JSON.stringify(_, null, 2)] and
    [JSON.parse(await fs.readFile(_, "utf-8"))]. *)
Record Env := {
  env_resolve : string -> string;
  env_join : string -> string -> string;
  env_ext : string -> string;
  env_timestamp : nat -> string;
  env_stringify : jsval -> string;
  env_read_json : string -> js_error + jsval
}.

(** Console output of [run]. *)
Inductive LogEvent :=
| LogRunning (n : nat)
| LogStep (i n : nat) (name : string)
| LogWritten (name file : string)
| LogContextOnly (name : string)
| LogFailed (name : string) (err : js_error)
| LogDone (dir : string).

(** The state [run] threads: [this.outputs], the files on disk, the
    console and the clock. *)
Record PState := {
  ps_outputs : gmap string StepOutput;
  ps_files : gmap string string;
  ps_log : list LogEvent;
  ps_clock : nat
}.

Definition add_log (e : LogEvent) (st : PState) : PState :=
  {| ps_outputs := ps_outputs st; ps_files := ps_files st;
     ps_log := ps_log st ++ [e]; ps_clock := ps_clock st |}.

Definition set_output (name : string) (o : StepOutput) (st : PState) : PState :=
  {| ps_outputs := <[name := o]> (ps_outputs st); ps_files := ps_files st;
     ps_log := ps_log st; ps_clock := ps_clock st |}.

Definition write_file (path content : string) (st : PState) : PState :=
  {| ps_outputs := ps_outputs st; ps_files := <[path := content]> (ps_files st);
     ps_log := ps_log st; ps_clock := ps_clock st |}.

Definition tick (st : PState) : PState :=
  {| ps_outputs := ps_outputs st; ps_files := ps_files st;
     ps_log := ps_log st; ps_clock := S (ps_clock st) |}.

(** [getCommentForFileType]: [Some (start, end)]. *)
Definition commentMap : list (string * (string * option string)) :=
  [(".js", ("//", None)); (".ts", ("//", None)); (".jsx", ("//", None));
   (".tsx", ("//", None)); (".py", ("#", None)); (".sh", ("#", None));
   (".bash", ("#", None)); (".yaml", ("#", None)); (".yml", ("#", None));
   (".toml", ("#", None)); (".ini", ("#", None)); (".conf", ("#", None));
   (".css", ("/*", Some "*/")); (".scss", ("//", None)); (".sass", ("//", None));
   (".less", ("//", None)); (".html", ("<!--", Some "-->")); (".xml", ("<!--", Some "-->"));
   (".sql", ("--", None)); (".rs", ("//", None)); (".go", ("//", None));
   (".java", ("//", None)); (".c", ("//", None)); (".cpp", ("//", None));
   (".h", ("//", None)); (".hpp", ("//", None)); (".cs", ("//", None));
   (".php", ("//", None)); (".rb", ("#", None)); (".pl", ("#", None));
   (".r", ("#", None)); (".lua", ("--", None)); (".vim", (dq, None));
   (".dockerfile", ("#", None)); (".gitignore", ("#", None)); (".env", ("#", None))].

Definition getCommentForFileType (ext : string) : option (string * option string) :=
  assoc ext commentMap.

(** [addAutogenerationComment]; reads the clock only when a comment is added. *)
Definition addAutogenerationComment (e : Env) (content ext : string) (st : PState) : string * PState :=
  match getCommentForFileType ext with
  | None => (content, st)
  | Some (start, end_) =>
      let timestamp := env_timestamp e (ps_clock st) in
      let text :=
        match end_ with
        | Some en => start +:+ " This file is auto-generated using oax. Do not edit manually." +:+ nl
                     +:+ "     Generated on: " +:+ timestamp +:+ " " +:+ en +:+ nl +:+ nl +:+ content
        | None => start +:+ " This file is auto-generated using oax. Do not edit manually." +:+ nl
                  +:+ start +:+ " Generated on: " +:+ timestamp +:+ nl +:+ nl +:+ content
        end in
      (text, tick st)
  end.

(** The body of the [try] block after [process] resolved with [output]. *)
Definition complete_step (e : Env) (outputDir : string) (s : Step) (output : StepOutput)
    (st : PState) : PState :=
  let st := set_output (step_name s) output st in
  match truthy_str (step_outputFile s) with
  | Some file =>
      let outputPath := env_join e outputDir file in
      let ext := env_ext e file in
      let raw := match so_content output with JStr c => c | v => env_stringify e v end in
      let '(content, st) := addAutogenerationComment e raw ext st in
      let st := write_file outputPath content st in
      add_log (LogWritten (step_name s) file) st
  | None => add_log (LogContextOnly (step_name s)) st
  end.

(** The [for] loop of [run], from the step at position [index]; on a
    throw the step's name is logged and the error re-thrown. *)
Fixpoint run_steps (e : Env) (inputs : gmap string StepInput) (outputDir : string)
    (total index : nat) (steps : list Step) (st : PState) : PState * option js_error :=
  match steps with
  | [] => (st, None)
  | s :: rest =>
      let st := add_log (LogStep (S index) total (step_name s)) st in
      let context := {| ctx_inputs := inputs; ctx_outputDir := outputDir;
                        ctx_previousOutputs := ps_outputs st |} in
      match step_process s context with
      | inl err => (add_log (LogFailed (step_name s) err) st, Some err)
      | inr output =>
          run_steps e inputs outputDir total (S index) rest (complete_step e outputDir s output st)
      end
  end.

(** [Pipeline.run]: the pipeline (with its updated [outputs]), the files on
    disk, the console and the clock, and the thrown error if any. *)
Definition Pipeline_run (e : Env) (p : Pipeline) (files : gmap string string) (clock : nat)
    : Pipeline * PState * option js_error :=
  let cfg := pl_config p in
  let outputDir := env_resolve e (default "oax" (truthy_str (cfg_outputDir cfg))) in
  let st0 := {| ps_outputs := pl_outputs p; ps_files := files; ps_log := []; ps_clock := clock |} in
  let loaded :=
    match truthy_str (cfg_input cfg) with
    | Some i =>
        match env_read_json e (env_resolve e i) with
        | inl err => inl err
        | inr v => inr (<[i := {| si_name := i; si_content := v |}]> (∅ : gmap string StepInput))
        end
    | None => inr ∅
    end in
  match loaded with
  | inl err => (p, st0, Some err)
  | inr inputs =>
      let steps := cfg_steps cfg in
      let st1 := add_log (LogRunning (length steps)) st0 in
      let '(st, r) := run_steps e inputs outputDir (length steps) 0 steps st1 in
      let st := match r with None => add_log (LogDone outputDir) st | Some _ => st end in
      ({| pl_config := cfg; pl_outputs := ps_outputs st |}, st, r)
  end.

(* ===================================================================== *)
(** ** Dependency checks of the built-in steps *)

(** [context.previousOutputs[name]?.content] *)
Definition previous_content (ctx : StepContext) (name : string) : jsval :=
  match ctx_previousOutputs ctx !! name with
  | Some o => so_content o
  | None => JUndef
  end.

Definition no_output_message (inputStep hint : string) : js_error :=
  "No output found from step " +:+ dq +:+ inputStep +:+ dq +:+ ". " +:+ hint.

(** [zodGenerator(options).process]; [generate] is the generation proper
    (schemas, operations and formatting) on the parsed document. *)
Definition zodGenerator_process (inputStepOpt : option string)
    (generate : jsval -> js_error + StepOutput) (ctx : StepContext) : js_error + StepOutput :=
  let inputStep := default "oas-parser" (truthy_str inputStepOpt) in
  let oasData := previous_content ctx inputStep in
  if negb (truthy oasData) then
    inl (no_output_message inputStep "Make sure the OAS parser step runs before this step.")
  else generate oasData.

(** [validatorPipeline(options).process]; [generate] is the code
    generation from [zodOutput.meta.operations]. *)
Definition validatorPipeline_process (inputStepOpt : option string)
    (generate : jsval -> js_error + StepOutput) (ctx : StepContext) : js_error + StepOutput :=
  let inputStep := default "zod-generator" (truthy_str inputStepOpt) in
  match ctx_previousOutputs ctx !! inputStep with
  | None => inl (no_output_message inputStep "Make sure the Zod generator step runs before this step.")
  | Some zodOutput =>
      let operations := match so_meta zodOutput with
                        | Some m => default JUndef (assoc "operations" m)
                        | None => JUndef
                        end in
      if negb (truthy operations) then
        inl ("No operations found in step " +:+ dq +:+ inputStep +:+ dq
             +:+ ". Make sure the Zod generator includes operations.")
      else generate operations
  end.


(* ===================================================================== *)
(** ** Reading generated fragments *)

Definition string_schema : schema := with_type (Some "string") empty_schema.
Definition n0 : jsnum := mknum "0" eq_refl.
Definition n5 : jsnum := mknum "5" eq_refl.

(** Does a node carry a composition keyword? *)
Definition is_composition (s : schema) : bool :=
  match s_allOf s, s_anyOf s, s_oneOf s with
  | None, None, None => false
  | _, _, _ => true
  end.

(** Shape of the claimed behaviour: the nullable node translates to the
    node without [nullable], suffixed with [.nullable()]. *)
Definition nullable_wraps (s : schema) : Prop :=
  generateZodCodeFromSchema s
  = option_map (fun c => c +:+ ".nullable()") (generateZodCodeFromSchema (with_nullable None s)).

(** [p] is a prefix of [s]. *)
Fixpoint starts_with (p s : string) : bool :=
  match p, s with
  | EmptyString, _ => true
  | String a p', String b s' => Ascii.eqb a b && starts_with p' s'
  | String _ _, EmptyString => false
  end.

(** Number of (possibly overlapping) occurrences of [p] in [s]. *)
Fixpoint count_sub (p s : string) : nat :=
  match s with
  | EmptyString => 0
  | String _ s' => (if starts_with p s then 1 else 0) + count_sub p s'
  end.

(** Lower- and upper-bound constraints in a numeric fragment. *)
Definition lower_bound_count (f : string) : nat := count_sub ".gt(" f + count_sub ".gte(" f.
Definition upper_bound_count (f : string) : nat := count_sub ".lt(" f + count_sub ".lte(" f.

Definition excl_true (o : option excl) : bool :=
  match o with Some (ExclBool true) => true | _ => false end.
Definition excl_num (o : option excl) : bool :=
  match o with Some (ExclNum _) => true | _ => false end.
Definition present {A} (o : option A) : bool := match o with Some _ => true | None => false end.

(** The item code [generateArraySchema] wraps. *)
Definition items_code (s : schema) : option string :=
  match s_items s with Some it => generateZodCodeFromSchema it | None => Some "z.any()" end.

Definition count_suffix (meth : string) (o : option jsnum) : string :=
  match o with Some n => "." +:+ meth +:+ "(" +:+ show_num n +:+ ")" | None => "" end.

(** The predicate of the emitted refinement,
    [(items) => new Set(items).size === items.length], on an array of
    numbers: a [Set] keeps one copy of each value. *)
Definition unique_refinement (items : list Z) : bool :=
  Nat.eqb (length (List.nodup Z.eq_dec items)) (length items).

Definition nullable_suffix (s : schema) : string :=
  match s_nullable s with Some true => ".nullable()" | _ => "" end.

(** Spec reading of one object entry: the optional suffix exactly when the
    name is not required, and a marker comment after a deprecated one. *)
Definition entry_spec (required : list string) (name : string) (prop : schema) (code : string) : string :=
  name +:+ ": " +:+ code
  +:+ (if bool_decide (name ∈ required) then "" else ".optional()")
  +:+ (match s_deprecated prop with Some true => " /* @deprecated */" | _ => "" end).

(** An operation with its [cookie] parameters removed. *)
Definition not_cookie (p : ParameterInfo) : bool := negb (String.eqb (pi_in p) "cookie").

Definition drop_cookies (op : OperationInfo) : OperationInfo :=
  {| oi_operationId := oi_operationId op; oi_method := oi_method op; oi_path := oi_path op;
     oi_parameters := List.filter not_cookie (oi_parameters op);
     oi_requestBody := oi_requestBody op; oi_responses := oi_responses op;
     oi_summary := oi_summary op; oi_description := oi_description op |}.

(** The context [run] hands to a step, from its [previousOutputs] map. *)
Definition step_context (inputs : gmap string StepInput) (outputDir : string)
    (prev : gmap string StepOutput) : StepContext :=
  {| ctx_inputs := inputs; ctx_outputDir := outputDir; ctx_previousOutputs := prev |}.

(** The map left by recording the outputs [os] under the names [ns], in
    order ([this.outputs[step.name] = output], the last write winning). *)
Definition outputs_of (ns : list string) (os : list StepOutput) : gmap string StepOutput :=
  list_to_map (reverse (zip ns os)).

(** A small pipeline: [s1] writes [a.ts], [s2] is context-only and [s3]
    reads [s1]'s output, which [s2] never references. *)
Definition ex_env : Env :=
  {| env_resolve := fun p => "/work/" +:+ p; env_join := fun a b => a +:+ "/" +:+ b;
     env_ext := fun f => if String.eqb f "a.ts" then ".ts" else ".json";
     env_timestamp := fun _ => "T"; env_stringify := fun _ => "{}";
     env_read_json := fun _ => inr JNull |}.

Definition ex_output (n : string) : StepOutput :=
  {| so_name := n; so_content := JStr n; so_meta := None |}.

Definition ex_step (n : string) (file : option string)
    (body : StepContext -> js_error + StepOutput) : Step :=
  {| step_name := n; step_input := None; step_outputFile := file; step_process := body |}.

Definition ex_s1 : Step := ex_step "s1" (Some "a.ts") (fun _ => inr (ex_output "A")).
Definition ex_s2 : Step := ex_step "s2" None (fun _ => inr (ex_output "B")).
Definition ex_s3 : Step :=
  ex_step "s3" (Some "c.json") (fun ctx =>
    match ctx_previousOutputs ctx !! "s1" with
    | Some o => inr (ex_output ("C" +:+ match so_content o with JStr c => c | _ => "" end))
    | None => inl "s1 missing"
    end).

Definition ex_cfg (steps : list Step) : PipelineConfig :=
  {| cfg_outputDir := None; cfg_input := None; cfg_steps := steps |}.


(** A context holding one output under [name]. *)
Definition ctx_with (name : string) (o : StepOutput) : StepContext :=
  step_context ∅ "/work/oax" {[ name := o ]}.

(** A Zod step output whose content is absent but whose metadata lists
    operations. *)
Definition contentless_zod_output : StepOutput :=
  {| so_name := "schemas"; so_content := JUndef; so_meta := Some [("operations", JObj [])] |}.

(* ===================================================================== *)
(** ** Auxiliary definitions of the proofs *)

Fixpoint ends_close (a : string) : bool :=
  match a with
  | EmptyString => false
  | String c EmptyString => Ascii.eqb c ")"%char
  | String _ r => ends_close r
  end.

Fixpoint no_close (p : string) : bool :=
  match p with
  | EmptyString => true
  | String c r => negb (Ascii.eqb c ")"%char) && no_close r
  end.

(** A piece is either empty or a complete call [....)]. *)
Definition piece_ok (a : string) : Prop := a = "" \/ ends_close a = true.

Fixpoint all_num (s : string) : bool :=
  match s with
  | EmptyString => true
  | String c r => is_num_char c && all_num r
  end.

Definition lower_min_piece (s : schema) : string :=
  match s_minimum s with
  | Some m => if excl_true (s_exclusiveMinimum s) then ".gt(" +:+ show_num m +:+ ")"
              else ".gte(" +:+ show_num m +:+ ")"
  | None => ""
  end.

Definition lower_excl_piece (s : schema) : string :=
  match s_exclusiveMinimum s with Some (ExclNum e) => ".gt(" +:+ show_num e +:+ ")" | _ => "" end.

Definition upper_max_piece (s : schema) : string :=
  match s_maximum s with
  | Some m => if excl_true (s_exclusiveMaximum s) then ".lt(" +:+ show_num m +:+ ")"
              else ".lte(" +:+ show_num m +:+ ")"
  | None => ""
  end.

Definition upper_excl_piece (s : schema) : string :=
  match s_exclusiveMaximum s with Some (ExclNum e) => ".lt(" +:+ show_num e +:+ ")" | _ => "" end.

Definition multiple_piece (s : schema) : string :=
  match s_multipleOf s with Some k => ".multipleOf(" +:+ show_num k +:+ ")" | None => "" end.

(** The four bound counters of a fragment. *)
Definition bound_counts (f : string) : nat * nat * nat * nat :=
  (count_sub ".gt(" f, count_sub ".gte(" f, count_sub ".lt(" f, count_sub ".lte(" f).

Definition add4 (x y : nat * nat * nat * nat) : nat * nat * nat * nat :=
  let '(a, b, c, d) := x in let '(a', b', c', d') := y in (a + a', b + b', c + c', d + d').

Definition b2n (b : bool) : nat := if b then 1 else 0.

Definition number_schema : schema := with_type (Some "number") empty_schema.

Definition addl_marker (s : schema) : string :=
  match s_additionalProperties s with
  | Some (inl false) => ".strict()"
  | Some (inl true) => ".passthrough()"
  | Some (inr _) => ".passthrough() /* additional properties allowed */"
  | None => ""
  end.

(* ===================================================================== *)
(** ** Where translation throws *)

(** The direct sub-schemas of a node. *)
Definition children (s : schema) : list schema :=
  default [] (s_allOf s) ++ default [] (s_anyOf s) ++ default [] (s_oneOf s)
  ++ (match s_items s with Some it => [it] | None => [] end)
  ++ map snd (default [] (s_properties s))
  ++ (match s_additionalProperties s with Some (inr v) => [v] | _ => [] end).

(** Does translation reach an empty [allOf] (the [reduce] [TypeError])?
    The traversal follows the code: a [$ref] stops it, the first present
    composition keyword is the only one visited, [items] is visited for
    arrays only, and [additionalProperties] for objects without
    [properties] only. *)
Fixpoint reaches_empty_allOf (s : schema) : bool :=
  match s_ref s with
  | Some _ => false
  | None =>
  match s_allOf s with
  | Some [] => true
  | Some l => existsb reaches_empty_allOf l
  | None =>
  match s_anyOf s with
  | Some l => existsb reaches_empty_allOf l
  | None =>
  match s_oneOf s with
  | Some l => existsb reaches_empty_allOf l
  | None =>
      match s_type s with
      | Some t =>
          if String.eqb t "array" then
            match s_items s with Some it => reaches_empty_allOf it | None => false end
          else if String.eqb t "object" then
            match s_properties s with
            | Some props => existsb (fun '(_, p) => reaches_empty_allOf p) props
            | None =>
                match s_additionalProperties s with
                | Some (inr v) => reaches_empty_allOf v
                | _ => false
                end
            end
          else false
      | None => false
      end
  end end end end.

(* ===================================================================== *)
(** ** Reading text *)

Fixpoint no_slash (s : string) : bool :=
  match s with
  | EmptyString => true
  | String c r => negb (Ascii.eqb c "/"%char) && no_slash r
  end.

Fixpoint no_backslash (s : string) : bool :=
  match s with
  | EmptyString => true
  | String c r => negb (Ascii.eqb c "\"%char) && no_backslash r
  end.

(** Is [s] a well-formed body of a regex literal [/s/]: every [/] is
    escaped and no backslash is left dangling at the end? *)
Fixpoint regex_body_ok (s : string) : bool :=
  match s with
  | EmptyString => true
  | String c r =>
      if Ascii.eqb c "\"%char then
        match r with EmptyString => false | String _ r' => regex_body_ok r' end
      else negb (Ascii.eqb c "/"%char) && regex_body_ok r
  end.

(** The pattern a regex literal body denotes when it holds no other escape
    than [\/]: [\/] stands for [/]. *)
Fixpoint unescape_slashes (s : string) : string :=
  match s with
  | EmptyString => EmptyString
  | String c r =>
      if Ascii.eqb c "\"%char then
        match r with
        | EmptyString => s
        | String d r' =>
            if Ascii.eqb d "/"%char then String "/"%char (unescape_slashes r')
            else String c (String d (unescape_slashes r'))
        end
      else String c (unescape_slashes r)
  end.

Fixpoint count_char (a : ascii) (s : string) : nat :=
  match s with
  | EmptyString => 0
  | String c r => (if Ascii.eqb c a then 1 else 0) + count_char a r
  end.

Fixpoint all_alnum (s : string) : bool :=
  match s with
  | EmptyString => true
  | String c r => is_alnum c && all_alnum r
  end.

(** [defineConfig] (config.ts). *)
Definition defineConfig (config : PipelineConfig) : PipelineConfig :=
  {| cfg_outputDir := Some (default "oax" (truthy_str (cfg_outputDir config)));
     cfg_input := truthy_str (cfg_input config);
     cfg_steps := cfg_steps config |}.

(** The part of a schema node that decides its translation when it holds
    [$ref], [allOf], [anyOf] or [oneOf]: that keyword alone (with the
    [discriminator] for [oneOf]); other nodes are kept whole. *)
Definition deciding_part (s : schema) : schema :=
  match s_ref s with
  | Some r => with_ref (Some r) empty_schema
  | None =>
  match s_allOf s with
  | Some l => with_allOf (Some l) empty_schema
  | None =>
  match s_anyOf s with
  | Some l => with_anyOf (Some l) empty_schema
  | None =>
  match s_oneOf s with
  | Some l => with_discriminator (s_discriminator s) (with_oneOf (Some l) empty_schema)
  | None => s
  end end end end.

(** Is a component kept by [generateZodSchemas] (not a reference object)? *)
Definition component_kept (c : string * schema) : bool :=
  match s_ref (snd c) with Some _ => false | None => true end.

(** An operation object with no field set. *)
Definition ex_operation : OperationObject :=
  {| op_operationId := None; op_parameters := None; op_requestBody := None;
     op_responses := None; op_summary := None; op_description := None |}.

(** A document with two path items and one absent one. *)
Definition ex_doc : Document :=
  {| doc_paths := Some [("/pets", Some [("post", ex_operation); ("get", ex_operation)]);
                        ("/gone", None);
                        ("/pets/{id}", Some [("delete", ex_operation)])];
     doc_components_schemas := None |}.

(** The progress lines [Step i/n: name] of the console. *)
Definition is_step_log (ev : LogEvent) : bool :=
  match ev with LogStep _ _ _ => true | _ => false end.

(* ===================================================================== *)
(** * Properties *)


Example translate_date_nullable :
  generateZodCodeFromSchema
    (with_nullable (Some true) (with_format (Some "date") string_schema))
  = Some "z.string().date().nullable()".
Proof. reflexivity. Qed.

Example translate_allOf_three :
  generateZodCodeFromSchema
    (with_allOf (Some [string_schema; with_ref (Some "#/components/schemas/A") empty_schema;
                       with_type (Some "boolean") empty_schema]) empty_schema)
  = Some "z.intersection(z.intersection(z.string(), A), z.boolean())".
Proof. reflexivity. Qed.

Example translate_allOf_empty_throws :
  generateZodCodeFromSchema (with_allOf (Some []) empty_schema) = None.
Proof. reflexivity. Qed.


(** C1 (counterexample): [{anyOf: [{type: "string"}], nullable: true}]
    translates to the bare union, without a [.nullable()] marker. *)
Lemma C1_nullable_anyOf_dropped :
  let s := with_nullable (Some true) (with_anyOf (Some [string_schema]) empty_schema) in
  generateZodCodeFromSchema s = Some "z.union([z.string()])" /\ ~ nullable_wraps s.
Proof.
  simpl. split; [reflexivity|]. unfold nullable_wraps. simpl. discriminate.
Qed.

Lemma translate_composition_ignores_nullable (s : schema) (b : option bool) :
  s_ref s = None -> is_composition s = true ->
  generateZodCodeFromSchema (with_nullable b s) = generateZodCodeFromSchema s.
Proof.
  destruct s as [ref allOf anyOf oneOf ? ? ? ? ? ? ? ? ? ? ? ? ? ? ? ? ? ? ? ? ? ? ?];
    simpl; intros -> Hc.
  unfold is_composition in Hc; simpl in Hc.
  destruct allOf, anyOf, oneOf; first [discriminate | reflexivity].
Qed.

Lemma translate_base_nullable (s : schema) :
  s_ref s = None -> is_composition s = false -> s_nullable s = Some true ->
  nullable_wraps s.
Proof.
  unfold nullable_wraps.
  destruct s as [ref allOf anyOf oneOf ? nullable ? ? ? ? ? ? ? ? ? ? ? ? ? ? ? ? ? ? ? ? ?];
    simpl; intros -> Hc ->.
  destruct allOf, anyOf, oneOf; try discriminate. simpl.
  destruct (generateBaseZodSchema _ _); reflexivity.
Qed.

(** C1 (amended): the nullable marker is applied only on the base-type
    path. A reference or composition node ([allOf]/[anyOf]/[oneOf])
    translates to the same text whatever its [nullable] flag; a node with
    neither and [nullable: true] translates to its base fragment suffixed
    with [.nullable()]. *)
Theorem C1_nullable_only_on_base (s : schema) :
  s_nullable s = Some true ->
  (s_ref s <> None \/ is_composition s = true ->
     generateZodCodeFromSchema s = generateZodCodeFromSchema (with_nullable None s)) /\
  (s_ref s = None -> is_composition s = false -> nullable_wraps s).
Proof.
  intros Hn. split.
  - intros [Hr | Hc].
    + destruct s; simpl in *. destruct s_ref0; [reflexivity | congruence].
    + destruct (s_ref s) eqn:Hr.
      * destruct s; simpl in *; rewrite Hr; reflexivity.
      * symmetry. apply translate_composition_ignores_nullable; assumption.
  - intros Hr Hc. apply translate_base_nullable; assumption.
Qed.

Lemma C1_nullable_only_on_base_witness :
  let s := with_nullable (Some true) (with_anyOf (Some [string_schema]) empty_schema) in
  s_nullable s = Some true /\
  generateZodCodeFromSchema s = generateZodCodeFromSchema (with_nullable None s).
Proof.
  simpl. split; [reflexivity|].
  apply (proj1 (C1_nullable_only_on_base
                  (with_nullable (Some true) (with_anyOf (Some [string_schema]) empty_schema))
                  eq_refl)).
  right. reflexivity.
Defined.

(** *** Counting constraint calls in a fragment *)

Lemma sappend_nil_r (a : string) : a +:+ "" = a.
Proof.
  induction a as [|c a IH]; [reflexivity|].
  change (String c (a +:+ "") = String c a). rewrite IH. reflexivity.
Qed.

Lemma sappend_assoc (a b c : string) : (a +:+ b) +:+ c = a +:+ (b +:+ c).
Proof.
  induction a as [|x a IH]; [reflexivity|].
  change (String x ((a +:+ b) +:+ c) = String x (a +:+ (b +:+ c))). rewrite IH. reflexivity.
Qed.


Lemma starts_with_app (a b p : string) :
  ends_close a = true -> no_close p = true ->
  starts_with p (a +:+ b) = starts_with p a.
Proof.
  revert p. induction a as [|c a IH]; intros p Ha Hp; [discriminate|].
  destruct p as [|d p]; [reflexivity|].
  simpl in Hp. apply andb_prop in Hp as [Hd Hp].
  destruct a as [|c' a'].
  - simpl in Ha. apply Ascii.eqb_eq in Ha. subst c.
    simpl. destruct (Ascii.eqb d ")") eqn:E; [discriminate|reflexivity].
  - change (String c (String c' a') +:+ b) with (String c (String c' a' +:+ b)).
    cbn [starts_with]. rewrite IH; [reflexivity | exact Ha | exact Hp].
Qed.

Lemma count_sub_app (a b p : string) :
  ends_close a = true -> no_close p = true ->
  count_sub p (a +:+ b) = count_sub p a + count_sub p b.
Proof.
  intros Ha Hp. induction a as [|c a IH]; [discriminate|].
  change (String c a +:+ b) with (String c (a +:+ b)).
  cbn [count_sub].
  change (String c (a +:+ b)) with (String c a +:+ b).
  rewrite starts_with_app by assumption.
  destruct a as [|c' a'].
  - change (count_sub p "") with 0. change ("" +:+ b) with b. lia.
  - rewrite IH by exact Ha. lia.
Qed.


Lemma count_sub_piece (a b p : string) :
  piece_ok a -> no_close p = true ->
  count_sub p (a +:+ b) = count_sub p a + count_sub p b.
Proof.
  intros [-> | Ha] Hp; [reflexivity | apply count_sub_app; assumption].
Qed.


Lemma numeric_text_all_num (s : string) : numeric_text s = true -> all_num s = true.
Proof.
  induction s as [|c r IH]; [discriminate|].
  destruct r as [|c' r']; simpl; intros H.
  - rewrite H. reflexivity.
  - apply andb_prop in H as [H1 H2]. rewrite H1. simpl. apply IH. exact H2.
Qed.

(** A pattern [".c..."], whose second character cannot occur in a number,
    never starts inside [n)] for a printed number [n]. *)
Lemma count_sub_num_close (c : ascii) (p' s : string) :
  is_num_char c = false -> Ascii.eqb c ")"%char = false -> all_num s = true ->
  count_sub (String "." (String c p')) (s +:+ ")") = 0.
Proof.
  intros Hc Hc' Hs. induction s as [|x r IH].
  - reflexivity.
  - simpl in Hs. apply andb_prop in Hs as [Hx Hr].
    change (String x r +:+ ")") with (String x (r +:+ ")")).
    cbn [count_sub]. rewrite IH by exact Hr.
    destruct r as [|y r'].
    + change ("" +:+ ")") with (String ")"%char "").
      cbn [starts_with]. rewrite Hc'. rewrite !andb_false_r. reflexivity.
    + simpl in Hr. apply andb_prop in Hr as [Hy _].
      change (String y r' +:+ ")") with (String y (r' +:+ ")")).
      cbn [starts_with].
      assert (Ascii.eqb c y = false) as ->.
      { destruct (Ascii.eqb c y) eqn:E; [|reflexivity].
        apply Ascii.eqb_eq in E. subst y. rewrite Hc in Hy. discriminate. }
      rewrite !andb_false_r. reflexivity.
Qed.

Lemma count_num (c : ascii) (p' : string) (n : jsnum) :
  is_num_char c = false -> Ascii.eqb c ")"%char = false ->
  count_sub (String "." (String c p')) (num_text n +:+ ")") = 0.
Proof.
  intros Hc Hc'. apply count_sub_num_close; try assumption.
  apply numeric_text_all_num, num_text_ok.
Qed.


Lemma numeric_constraints_split (s : schema) (z : string) :
  numeric_constraints s z =
  z +:+ (lower_min_piece s +:+ (lower_excl_piece s +:+ (upper_max_piece s
    +:+ (upper_excl_piece s +:+ multiple_piece s)))).
Proof.
  unfold numeric_constraints, lower_min_piece, lower_excl_piece, upper_max_piece,
    upper_excl_piece, multiple_piece, excl_true.
  destruct (s_minimum s), (s_exclusiveMinimum s) as [[[|]|?|]|], (s_maximum s),
    (s_exclusiveMaximum s) as [[[|]|?|]|], (s_multipleOf s);
    rewrite ?sappend_assoc; rewrite ?sappend_nil_r; reflexivity.
Qed.

Lemma ends_close_app_close (x : string) : ends_close (x +:+ ")") = true.
Proof.
  induction x as [|c r IH]; [reflexivity|].
  change (String c r +:+ ")") with (String c (r +:+ ")")).
  destruct (r +:+ ")") as [|c' r'] eqn:E.
  - destruct r; discriminate.
  - exact IH.
Qed.

Lemma call_piece_ok (q : string) (n : jsnum) : q <> "" -> piece_ok (q +:+ show_num n +:+ ")").
Proof.
  intros Hq. right. rewrite <- sappend_assoc. apply ends_close_app_close.
Qed.


Ltac count_call :=
  unfold bound_counts, show_num; simpl;
  change ("" +:+ ?X) with X; rewrite ?count_num by reflexivity; reflexivity.

Lemma counts_gt (n : jsnum) : bound_counts (".gt(" +:+ show_num n +:+ ")") = (1, 0, 0, 0).
Proof. count_call. Qed.
Lemma counts_gte (n : jsnum) : bound_counts (".gte(" +:+ show_num n +:+ ")") = (0, 1, 0, 0).
Proof. count_call. Qed.
Lemma counts_lt (n : jsnum) : bound_counts (".lt(" +:+ show_num n +:+ ")") = (0, 0, 1, 0).
Proof. count_call. Qed.
Lemma counts_lte (n : jsnum) : bound_counts (".lte(" +:+ show_num n +:+ ")") = (0, 0, 0, 1).
Proof. count_call. Qed.
Lemma counts_multipleOf (n : jsnum) :
  bound_counts (".multipleOf(" +:+ show_num n +:+ ")") = (0, 0, 0, 0).
Proof. count_call. Qed.


Lemma bound_counts_piece (a b : string) :
  piece_ok a -> bound_counts (a +:+ b) = add4 (bound_counts a) (bound_counts b).
Proof.
  intros Ha. unfold bound_counts, add4.
  rewrite !(count_sub_piece a b) by (assumption || reflexivity). reflexivity.
Qed.

Lemma bound_counts_empty : bound_counts "" = (0, 0, 0, 0).
Proof. reflexivity. Qed.

Ltac piece_cases :=
  repeat match goal with
         | |- context [match ?o with Some _ => _ | None => _ end] => destruct o
         | |- context [match ?o with ExclBool _ => _ | _ => _ end] => destruct o
         | |- context [if ?b then _ else _] => destruct b
         end.

Lemma numeric_pieces_ok (s : schema) :
  piece_ok (lower_min_piece s) /\ piece_ok (lower_excl_piece s) /\
  piece_ok (upper_max_piece s) /\ piece_ok (upper_excl_piece s).
Proof.
  unfold lower_min_piece, lower_excl_piece, upper_max_piece, upper_excl_piece.
  repeat split; piece_cases;
    solve [left; reflexivity | apply call_piece_ok; discriminate].
Qed.


Lemma numeric_constraints_counts (s : schema) (z : string) :
  piece_ok z ->
  bound_counts (numeric_constraints s z) =
  add4 (bound_counts z)
    (b2n (present (s_minimum s) && excl_true (s_exclusiveMinimum s))
       + b2n (excl_num (s_exclusiveMinimum s)),
     b2n (present (s_minimum s) && negb (excl_true (s_exclusiveMinimum s))),
     b2n (present (s_maximum s) && excl_true (s_exclusiveMaximum s))
       + b2n (excl_num (s_exclusiveMaximum s)),
     b2n (present (s_maximum s) && negb (excl_true (s_exclusiveMaximum s)))).
Proof.
  intros Hz. destruct (numeric_pieces_ok s) as (H1 & H2 & H3 & H4).
  rewrite numeric_constraints_split.
  rewrite (bound_counts_piece z) by exact Hz.
  rewrite (bound_counts_piece (lower_min_piece s)) by exact H1.
  rewrite (bound_counts_piece (lower_excl_piece s)) by exact H2.
  rewrite (bound_counts_piece (upper_max_piece s)) by exact H3.
  rewrite (bound_counts_piece (upper_excl_piece s)) by exact H4.
  unfold lower_min_piece, lower_excl_piece, upper_max_piece, upper_excl_piece, multiple_piece,
    excl_true, excl_num, present.
  destruct (bound_counts z) as [[[a b] c] d].
  destruct (s_minimum s), (s_exclusiveMinimum s) as [[[|]|?|]|], (s_maximum s),
    (s_exclusiveMaximum s) as [[[|]|?|]|], (s_multipleOf s);
    rewrite ?counts_gt, ?counts_gte, ?counts_lt, ?counts_lte, ?counts_multipleOf,
      ?bound_counts_empty; simpl; f_equal; lia.
Qed.


(** C4 (counterexample): [{type: "number", minimum: 0, exclusiveMinimum: 5}]
    translates to [z.number().gte(0).gt(5)], with two lower-bound
    constraints. *)
Lemma C4_two_lower_bounds :
  let s := with_exclusiveMinimum (Some (ExclNum n5)) (with_minimum (Some n0) number_schema) in
  generateZodCodeFromSchema s = Some "z.number().gte(0).gt(5)" /\
  lower_bound_count (generateNumberSchema s) = 2.
Proof. split; reflexivity. Qed.

(** C4 (amended): for number and integer nodes, [minimum = m] gives
    [.gt(m)] when [exclusiveMinimum === true] and [.gte(m)] otherwise, and
    a numeric [exclusiveMinimum = e] gives [.gt(e)] independently: the
    fragment holds exactly these lower-bound calls (so two of them when both
    [minimum] and a numeric [exclusiveMinimum] are given, at most one
    otherwise); symmetrically for [maximum]/[exclusiveMaximum] and
    [.lt]/[.lte]. The fragment is exactly the base followed by these calls
    (with their arguments [m] and [e]) and the [multipleOf] call, and the
    counts of [.gt(], [.gte(], [.lt(] and [.lte(] in it are exactly those
    of the calls named above. *)
Theorem C4_bound_counts (s : schema) :
  generateNumberSchema s =
    "z.number()" +:+ lower_min_piece s +:+ lower_excl_piece s +:+ upper_max_piece s
    +:+ upper_excl_piece s +:+ multiple_piece s /\
  generateIntegerSchema s =
    "z.number().int()" +:+ lower_min_piece s +:+ lower_excl_piece s +:+ upper_max_piece s
    +:+ upper_excl_piece s +:+ multiple_piece s /\
  let expected :=
    (b2n (present (s_minimum s) && excl_true (s_exclusiveMinimum s))
       + b2n (excl_num (s_exclusiveMinimum s)),
     b2n (present (s_minimum s) && negb (excl_true (s_exclusiveMinimum s))),
     b2n (present (s_maximum s) && excl_true (s_exclusiveMaximum s))
       + b2n (excl_num (s_exclusiveMaximum s)),
     b2n (present (s_maximum s) && negb (excl_true (s_exclusiveMaximum s)))) in
  bound_counts (generateNumberSchema s) = expected /\
  bound_counts (generateIntegerSchema s) = expected /\
  lower_bound_count (generateNumberSchema s)
    = b2n (present (s_minimum s)) + b2n (excl_num (s_exclusiveMinimum s)) /\
  upper_bound_count (generateNumberSchema s)
    = b2n (present (s_maximum s)) + b2n (excl_num (s_exclusiveMaximum s)) /\
  lower_bound_count (generateIntegerSchema s)
    = b2n (present (s_minimum s)) + b2n (excl_num (s_exclusiveMinimum s)) /\
  upper_bound_count (generateIntegerSchema s)
    = b2n (present (s_maximum s)) + b2n (excl_num (s_exclusiveMaximum s)).
Proof.
  split; [unfold generateNumberSchema; apply numeric_constraints_split|].
  split; [unfold generateIntegerSchema; apply numeric_constraints_split|].
  intros expected.
  assert (Hn : bound_counts (generateNumberSchema s) = expected).
  { unfold generateNumberSchema. rewrite numeric_constraints_counts by (right; reflexivity).
    reflexivity. }
  assert (Hi : bound_counts (generateIntegerSchema s) = expected).
  { unfold generateIntegerSchema. rewrite numeric_constraints_counts by (right; reflexivity).
    reflexivity. }
  split; [exact Hn|]. split; [exact Hi|].
  unfold lower_bound_count, upper_bound_count.
  unfold bound_counts in Hn, Hi. unfold expected in Hn, Hi.
  injection Hn as Hn1 Hn2 Hn3 Hn4. injection Hi as Hi1 Hi2 Hi3 Hi4.
  rewrite Hn1, Hn2, Hn3, Hn4, Hi1, Hi2, Hi3, Hi4.
  destruct (s_minimum s), (s_maximum s), (excl_true (s_exclusiveMinimum s)),
    (excl_true (s_exclusiveMaximum s)); simpl; repeat split; lia.
Qed.

(** C7: a string node with an [enum] list translates to [z.enum] of the
    quoted values (plus the nullable marker when flagged), and its
    [format], [minLength], [maxLength] and [pattern] do not change the
    output. *)
Theorem C7_enum_short_circuits (s : schema) (vals : list string) :
  s_ref s = None -> is_composition s = false ->
  s_type s = Some "string" -> s_enum s = Some vals ->
  generateStringSchema s = enum_literal vals /\
  generateZodCodeFromSchema s = Some (enum_literal vals +:+ nullable_suffix s) /\
  (forall fmt minL maxL pat,
     generateZodCodeFromSchema
       (with_format fmt (with_minLength minL (with_maxLength maxL (with_pattern pat s))))
     = generateZodCodeFromSchema s).
Proof.
  destruct s as [ref allOf anyOf oneOf ? nullable ty enum ? ? ? ? ? ? ? ? ? ? ? ? ? ? ? ? ? ? ?];
    simpl; intros -> Hc -> ->.
  unfold is_composition in Hc; simpl in Hc.
  destruct allOf, anyOf, oneOf; try discriminate.
  split; [reflexivity|]. split.
  - unfold nullable_suffix; simpl. destruct nullable as [[]|]; simpl;
      rewrite ?sappend_nil_r; reflexivity.
  - intros. reflexivity.
Qed.

Lemma C7_enum_short_circuits_witness :
  let s := with_pattern (Some "^a$") (with_minLength (Some n5)
             (with_format (Some "email") (with_enum (Some ["a"; "b"]) string_schema))) in
  generateZodCodeFromSchema s = Some "z.enum(['a', 'b'])".
Proof.
  cbv zeta.
  destruct (C7_enum_short_circuits
              (with_pattern (Some "^a$") (with_minLength (Some n5)
                 (with_format (Some "email") (with_enum (Some ["a"; "b"]) string_schema))))
              ["a"; "b"] eq_refl eq_refl eq_refl eq_refl) as (_ & H & _).
  rewrite H. reflexivity.
Defined.

Lemma generateArraySchema_unique (s : schema) (item : string) :
  items_code s = Some item -> s_uniqueItems s = Some true ->
  generateArraySchema generateZodCodeFromSchema s =
  Some ("z.array(" +:+ item +:+ ")" +:+ count_suffix "min" (s_minItems s)
        +:+ count_suffix "max" (s_maxItems s) +:+ unique_refine_text).
Proof.
  unfold generateArraySchema, items_code, count_suffix. intros Hi Hu.
  rewrite Hi, Hu.
  destruct (s_minItems s), (s_maxItems s); rewrite ?sappend_assoc; reflexivity.
Qed.

Lemma length_nodup_le (l : list Z) : length (List.nodup Z.eq_dec l) <= length l.
Proof.
  induction l as [|a l IH]; simpl; [lia|].
  destruct (in_dec Z.eq_dec a l); simpl; lia.
Qed.

Lemma unique_refinement_NoDup (l : list Z) : unique_refinement l = true <-> List.NoDup l.
Proof.
  unfold unique_refinement. rewrite Nat.eqb_eq.
  induction l as [|a l IH]; simpl.
  - split; intros; [constructor | reflexivity].
  - destruct (in_dec Z.eq_dec a l) as [Hin|Hin].
    + split; intros H.
      * pose proof (length_nodup_le l). lia.
      * apply NoDup_cons_iff in H as [H _]. contradiction.
    + simpl. rewrite NoDup_cons_iff. split.
      * intros H. split; [exact Hin|]. apply IH. lia.
      * intros [_ H]. apply IH in H. lia.
Qed.

(** C8: an array node with [uniqueItems: true] translates to
    [z.array(item)], then its [minItems]/[maxItems] calls, then the
    refinement [new Set(items).size === items.length] with the message
    "Items must be unique" (then [.nullable()] when flagged); that
    refinement holds exactly on duplicate-free arrays, so it rejects
    [[1,1]] and accepts [[1,2]]. *)
Theorem C8_unique_items_refinement (s : schema) (item : string) :
  s_ref s = None -> is_composition s = false -> s_type s = Some "array" ->
  s_uniqueItems s = Some true -> items_code s = Some item ->
  generateZodCodeFromSchema s =
    Some ("z.array(" +:+ item +:+ ")" +:+ count_suffix "min" (s_minItems s)
          +:+ count_suffix "max" (s_maxItems s) +:+ unique_refine_text
          +:+ nullable_suffix s) /\
  unique_refine_text =
    ".refine((items) => new Set(items).size === items.length, { message: "
    +:+ dq +:+ "Items must be unique" +:+ dq +:+ " })" /\
  (forall l, unique_refinement l = true <-> List.NoDup l) /\
  unique_refinement [1; 1]%Z = false /\ unique_refinement [1; 2]%Z = true.
Proof.
  intros Hr Hc Ht Hu Hi.
  split; [|split; [reflexivity | split; [exact unique_refinement_NoDup | split; reflexivity]]].
  pose proof (generateArraySchema_unique s item Hi Hu) as Ha.
  destruct s as [ref allOf anyOf oneOf ? nullable ty ? ? ? ? ? ? ? ? ? ? ? ? ? ? ? ? ? ? ? ?];
    simpl in *; subst ref ty.
  unfold is_composition in Hc; simpl in Hc.
  destruct allOf, anyOf, oneOf; try discriminate.
  unfold generateBaseZodSchema; simpl. rewrite Ha.
  unfold nullable_suffix; simpl.
  destruct nullable as [[]|]; rewrite ?sappend_assoc, ?sappend_nil_r; reflexivity.
Qed.

Lemma C8_unique_items_refinement_witness :
  let s := with_uniqueItems (Some true) (with_items (Some (with_type (Some "integer") empty_schema))
             (with_type (Some "array") empty_schema)) in
  generateZodCodeFromSchema s =
    Some ("z.array(z.number().int())" +:+ unique_refine_text).
Proof.
  cbv zeta.
  destruct (C8_unique_items_refinement
              (with_uniqueItems (Some true) (with_items (Some (with_type (Some "integer") empty_schema))
                 (with_type (Some "array") empty_schema)))
              "z.number().int()" eq_refl eq_refl eq_refl eq_refl eq_refl) as (H & _).
  rewrite H. reflexivity.
Defined.

Lemma translate_ignores_own_deprecated (p : schema) (b : option bool) :
  generateZodCodeFromSchema (with_deprecated b p) = generateZodCodeFromSchema p.
Proof. destruct p; reflexivity. Qed.

Lemma property_entry_spec (s : schema) (name : string) (prop : schema) (code : string) :
  property_entry s name prop code = entry_spec (default [] (s_required s)) name prop code.
Proof.
  unfold property_entry, entry_spec, is_required.
  destruct (s_required s) as [r|]; simpl;
    [destruct (bool_decide (name ∈ r)) |];
    destruct (s_deprecated prop) as [[]|]; rewrite ?sappend_nil_r; reflexivity.
Qed.

Lemma map_opt_entries (f : string -> schema -> string -> string)
    (props : list (string * schema)) (codes : list string) :
  map_opt (fun '(_, p) => generateZodCodeFromSchema p) props = Some codes ->
  map_opt (fun '(n, p) => c <- generateZodCodeFromSchema p; Some (f n p c)) props
  = Some (map (fun '((n, p), c) => f n p c) (zip props codes)).
Proof.
  revert codes. induction props as [|[n p] props IH]; simpl; intros codes H.
  - injection H as <-. reflexivity.
  - destruct (generateZodCodeFromSchema p) as [c|]; [|discriminate].
    destruct (map_opt _ props) as [cs|] eqn:E; [|discriminate].
    injection H as <-. rewrite (IH cs eq_refl). reflexivity.
Qed.


Lemma object_count_refines_app (s : schema) (z m : string) :
  object_count_refines s (z +:+ m) = z +:+ object_count_refines s m.
Proof.
  unfold object_count_refines.
  destruct (s_minProperties s), (s_maxProperties s); rewrite ?sappend_assoc; reflexivity.
Qed.

Lemma generateObjectSchema_props (s : schema) (props : list (string * schema)) (codes : list string) :
  s_properties s = Some props ->
  map_opt (fun '(_, p) => generateZodCodeFromSchema p) props = Some codes ->
  generateObjectSchema generateZodCodeFromSchema s =
  Some ("z.object({ "
        +:+ join ", " (map (fun '((n, p), c) => entry_spec (default [] (s_required s)) n p c)
                           (zip props codes))
        +:+ " })" +:+ object_count_refines s (addl_marker s)).
Proof.
  intros Hp Hcodes. unfold generateObjectSchema. rewrite Hp.
  rewrite (map_opt_entries (property_entry s) props codes Hcodes).
  assert (Hmap : map (fun '(n, p, c) => property_entry s n p c) (zip props codes)
                 = map (fun '(n, p, c) => entry_spec (default [] (s_required s)) n p c)
                       (zip props codes)).
  { apply map_ext. intros [[n p] c]. apply property_entry_spec. }
  rewrite Hmap. f_equal.
  rewrite <- !object_count_refines_app. f_equal.
  unfold addl_marker.
  destruct (s_additionalProperties s) as [[[]|]|]; rewrite ?sappend_assoc, ?sappend_nil_r;
    reflexivity.
Qed.

(** C6: for an object node with declared properties [P] (listed with
    their codes) and required names [R], the translation opens with
    [z.object({ ... })] whose entries are, in order, [name: code] for a
    required name and [name: code.optional()] for any other, each followed
    by the marker comment [/* @deprecated */] exactly when the property is
    deprecated; deprecation does not change a property's own code. *)
Theorem C6_required_optional_partition (s : schema) (props : list (string * schema))
    (codes : list string) :
  s_ref s = None -> is_composition s = false -> s_type s = Some "object" ->
  s_properties s = Some props ->
  map_opt (fun '(_, p) => generateZodCodeFromSchema p) props = Some codes ->
  (exists tail,
     generateZodCodeFromSchema s =
     Some ("z.object({ "
           +:+ join ", " (map (fun '((n, p), c) => entry_spec (default [] (s_required s)) n p c)
                               (zip props codes))
           +:+ " })" +:+ tail)) /\
  (forall p b, generateZodCodeFromSchema (with_deprecated b p) = generateZodCodeFromSchema p).
Proof.
  intros Hr Hc Ht Hp Hcodes. split; [|exact translate_ignores_own_deprecated].
  pose proof (generateObjectSchema_props s props codes Hp Hcodes) as Ho.
  exists (object_count_refines s (addl_marker s) +:+ nullable_suffix s).
  destruct s as [ref allOf anyOf oneOf ? nullable ty ? ? ? ? ? ? ? ? ? ? ? ? ? ? ? ? ? ? ? ?];
    simpl in *; subst ref ty.
  unfold is_composition in Hc; simpl in Hc.
  destruct allOf, anyOf, oneOf; try discriminate.
  unfold generateBaseZodSchema; simpl. rewrite Ho.
  unfold nullable_suffix; simpl.
  destruct nullable as [[]|]; rewrite ?sappend_assoc, ?sappend_nil_r; reflexivity.
Qed.

Lemma C6_required_optional_partition_witness :
  let s := with_required (Some ["a"])
             (with_properties (Some [("a", string_schema);
                                     ("b", with_deprecated (Some true) string_schema)])
                (with_type (Some "object") empty_schema)) in
  exists tail,
    generateZodCodeFromSchema s =
    Some ("z.object({ a: z.string(), b: z.string().optional() /* @deprecated */ })" +:+ tail).
Proof.
  intros s.
  destruct (proj1 (C6_required_optional_partition s
                     [("a", string_schema); ("b", with_deprecated (Some true) string_schema)]
                     ["z.string()"; "z.string()"]
                     eq_refl eq_refl eq_refl eq_refl eq_refl)) as [t Ht].
  exists t. rewrite Ht. reflexivity.
Defined.

Lemma map_opt_In {A B} (f : A -> option B) (l : list A) (out : list B) (x : A) :
  map_opt f l = Some out -> In x l -> exists y, f x = Some y /\ In y out.
Proof.
  revert out. induction l as [|a l IH]; simpl; intros out H Hin; [contradiction|].
  destruct (f a) as [y|] eqn:Ea; [|discriminate].
  destruct (map_opt f l) as [ys|] eqn:El; [|discriminate].
  injection H as <-. destruct Hin as [<-|Hin].
  - exists y. split; [exact Ea | left; reflexivity].
  - destruct (IH ys eq_refl Hin) as [z [Hz Hzin]]. exists z. split; [exact Hz | right; exact Hzin].
Qed.

(** C5: translation is a function of the node alone: structurally equal
    nodes translate to the same text, and within one run of the component
    emitter every component holding a given (non-reference) node is emitted
    with that node's one translation, whatever its name or position. *)
Theorem C5_translation_deterministic (cs : list (string * schema)) (infos : list ZodSchemaInfo)
    (n1 n2 : string) (s : schema) :
  (forall s1 s2 : schema, s1 = s2 -> generateZodCodeFromSchema s1 = generateZodCodeFromSchema s2) /\
  (generateZodSchemas (Some cs) = Some infos -> In (n1, s) cs -> In (n2, s) cs -> s_ref s = None ->
   exists c, generateZodCodeFromSchema s = Some c /\
             In {| zi_name := n1; zi_zodCode := c |} infos /\
             In {| zi_name := n2; zi_zodCode := c |} infos).
Proof.
  split; [intros s1 s2 ->; reflexivity|].
  intros H H1 H2 Hr. simpl in H.
  assert (Hf : forall n, In (n, s) cs ->
            In (n, s) (List.filter (fun '(_, s) => match s_ref s with Some _ => false | None => true end) cs)).
  { intros n Hn. apply filter_In. split; [exact Hn|]. rewrite Hr. reflexivity. }
  destruct (map_opt_In _ _ _ _ H (Hf n1 H1)) as [i1 [E1 Hi1]].
  destruct (map_opt_In _ _ _ _ H (Hf n2 H2)) as [i2 [E2 Hi2]].
  destruct (generateZodCodeFromSchema s) as [c|] eqn:Ec; [|discriminate].
  injection E1 as <-. injection E2 as <-.
  exists c. split; [reflexivity|]. split; assumption.
Qed.

Lemma C5_translation_deterministic_witness :
  generateZodSchemas (Some [("A", string_schema); ("B", string_schema)])
    = Some [{| zi_name := "A"; zi_zodCode := "z.string()" |};
            {| zi_name := "B"; zi_zodCode := "z.string()" |}] /\
  exists c, generateZodCodeFromSchema string_schema = Some c /\
    In {| zi_name := "A"; zi_zodCode := c |}
       [{| zi_name := "A"; zi_zodCode := "z.string()" |}; {| zi_name := "B"; zi_zodCode := "z.string()" |}] /\
    In {| zi_name := "B"; zi_zodCode := c |}
       [{| zi_name := "A"; zi_zodCode := "z.string()" |}; {| zi_name := "B"; zi_zodCode := "z.string()" |}].
Proof.
  split; [reflexivity|].
  apply (proj2 (C5_translation_deterministic [("A", string_schema); ("B", string_schema)]
                  [{| zi_name := "A"; zi_zodCode := "z.string()" |};
                   {| zi_name := "B"; zi_zodCode := "z.string()" |}] "A" "B" string_schema)).
  - reflexivity.
  - left; reflexivity.
  - right; left; reflexivity.
  - reflexivity.
Defined.

Lemma extract_parameters_In (ps : list param_or_ref) (infos : list ParameterInfo)
    (po : ParameterObject) :
  extract_parameters ps = Some infos -> In (ParamObj po) ps ->
  exists pi, In pi infos /\ pi_name pi = po_name po /\ pi_in pi = po_in po.
Proof.
  unfold extract_parameters. intros H Hin.
  set (g := fun p : param_or_ref => match p with
                   | ParamRef _ => None
                   | ParamObj po =>
                       let req := default false (po_required po) in
                       Some (zodCode <- generateZodCodeFromOptSchema (po_schema po);
                             Some {| pi_name := po_name po; pi_in := po_in po; pi_required := req;
                                     pi_schema := {| sr_zodCode := zodCode; sr_required := req |} |})
                   end) in *.
  assert (Hg : In (g (ParamObj po)) (map Some (omap g ps))).
  { apply in_map_iff.
    exists (zodCode <- generateZodCodeFromOptSchema (po_schema po);
            Some {| pi_name := po_name po; pi_in := po_in po;
                    pi_required := default false (po_required po);
                    pi_schema := {| sr_zodCode := zodCode;
                                    sr_required := default false (po_required po) |} |}).
    split; [reflexivity|]. apply list_elem_of_In, list_elem_of_omap.
    exists (ParamObj po). split; [apply list_elem_of_In; exact Hin | reflexivity]. }
  apply in_map_iff in Hg as [x [Hx Hxin]].
  destruct (map_opt_In _ _ _ _ H Hxin) as [y [Hy Hyin]].
  simpl in Hx. injection Hx as Hx. subst x.
  destruct (generateZodCodeFromOptSchema (po_schema po)); [|discriminate].
  injection Hy as <-. eexists. split; [exact Hyin|]. split; reflexivity.
Qed.

Lemma params_in_drop (loc : string) (ps : list ParameterInfo) :
  loc <> "cookie" -> params_in loc (List.filter not_cookie ps) = params_in loc ps.
Proof.
  intros Hl. induction ps as [|p ps IH]; [reflexivity|].
  unfold params_in, not_cookie in *; simpl.
  destruct (String.eqb_spec (pi_in p) "cookie") as [Hc|Hc]; simpl.
  - rewrite Hc. destruct (String.eqb_spec "cookie" loc) as [E|E]; [congruence|]. exact IH.
  - destruct (String.eqb (pi_in p) loc); simpl; rewrite IH; reflexivity.
Qed.

(** C10: a non-reference [cookie] parameter of an operation is recorded by
    the extractor, yet none of the three emitted parameter groups holds a
    cookie parameter, and the emitted operations text is the same as for
    the operations with every cookie parameter removed: cookie parameters
    leave no trace in the generated code, and emission has no error path. *)
Theorem C10_cookie_params_dropped (path method : string) (op : OperationObject)
    (ps : list param_or_ref) (po : ParameterObject) (oi : OperationInfo) :
  (op_parameters op = Some ps -> In (ParamObj po) ps -> po_in po = "cookie" ->
   operation_info path method op = Some oi ->
   exists pi, In pi (oi_parameters oi) /\ pi_name pi = po_name po /\ pi_in pi = "cookie") /\
  (forall q ops, (In q (params_in "path" ops) \/ In q (params_in "query" ops) \/
                  In q (params_in "header" ops)) -> pi_in q <> "cookie") /\
  (forall ops, generateOperationsCode ops = generateOperationsCode (map drop_cookies ops)).
Proof.
  split; [|split].
  - intros Hp Hin Hc Ho. unfold operation_info in Ho. rewrite Hp in Ho. simpl in Ho.
    destruct (extract_parameters ps) as [infos|] eqn:Ep; [|discriminate].
    destruct (extract_requestBody (op_requestBody op)); [|discriminate].
    destruct (extract_responses (default [] (op_responses op))); [|discriminate].
    injection Ho as <-. simpl.
    destruct (extract_parameters_In ps infos po Ep Hin) as [pi [H1 [H2 H3]]].
    exists pi. split; [exact H1|]. split; [exact H2|]. rewrite H3. exact Hc.
  - intros q ops Hq. unfold params_in in Hq.
    destruct Hq as [Hq|[Hq|Hq]]; apply filter_In in Hq as [_ Hq];
      apply String.eqb_eq in Hq; rewrite Hq; discriminate.
  - intros ops. unfold generateOperationsCode. rewrite map_map. do 3 f_equal.
    apply map_ext. intros o. unfold operation_code, drop_cookies; simpl.
    rewrite !params_in_drop by discriminate. reflexivity.
Qed.

Lemma C10_cookie_params_dropped_witness :
  let po := {| po_name := "sid"; po_in := "cookie"; po_required := None;
               po_schema := Some string_schema |} in
  let op := {| op_operationId := Some "getX"; op_parameters := Some [ParamObj po];
               op_requestBody := None; op_responses := None; op_summary := None;
               op_description := None |} in
  exists oi, operation_info "/x" "get" op = Some oi /\
    exists pi, In pi (oi_parameters oi) /\ pi_name pi = "sid" /\ pi_in pi = "cookie".
Proof.
  intros po op.
  exists {| oi_operationId := "getX"; oi_method := "get"; oi_path := "/x";
            oi_parameters := [{| pi_name := "sid"; pi_in := "cookie"; pi_required := false;
                                 pi_schema := {| sr_zodCode := "z.string()"; sr_required := false |} |}];
            oi_requestBody := None; oi_responses := []; oi_summary := None; oi_description := None |}.
  split; [reflexivity|].
  apply (proj1 (C10_cookie_params_dropped "/x" "get" op [ParamObj po] po _)).
  - reflexivity.
  - left; reflexivity.
  - reflexivity.
  - reflexivity.
Defined.

(** ** The pipeline engine *)

Lemma addAutogenerationComment_outputs (e : Env) (c x : string) (st : PState) :
  ps_outputs (snd (addAutogenerationComment e c x st)) = ps_outputs st /\
  ps_files (snd (addAutogenerationComment e c x st)) = ps_files st.
Proof.
  unfold addAutogenerationComment.
  destruct (getCommentForFileType x) as [[a [b|]]|]; split; reflexivity.
Qed.

Lemma complete_step_outputs (e : Env) (d : string) (s : Step) (o : StepOutput) (st : PState) :
  ps_outputs (complete_step e d s o st) = <[step_name s := o]> (ps_outputs st).
Proof.
  unfold complete_step. destruct (truthy_str (step_outputFile s)) as [file|]; [|reflexivity].
  match goal with |- context [addAutogenerationComment ?e ?c ?x ?st] =>
    pose proof (addAutogenerationComment_outputs e c x st) as [Ho _];
    destruct (addAutogenerationComment e c x st) as [content st2] end.
  simpl in *. exact Ho.
Qed.

Lemma outputs_of_snoc (ns : list string) (os : list StepOutput) (n : string) (o : StepOutput) :
  length ns = length os ->
  outputs_of (ns ++ [n]) (os ++ [o]) = <[n := o]> (outputs_of ns os).
Proof.
  intros Hl. unfold outputs_of. rewrite (zip_with_app pair ns [n] os [o] Hl).
  simpl. rewrite reverse_snoc. reflexivity.
Qed.

Lemma outputs_of_lookup (ns : list string) (os : list StepOutput) (j : nat) (n : string) (o : StepOutput) :
  NoDup ns -> length ns = length os -> ns !! j = Some n -> os !! j = Some o ->
  outputs_of ns os !! n = Some o.
Proof.
  intros Hnd Hl Hn Ho. unfold outputs_of. apply elem_of_list_to_map_1.
  - rewrite fmap_reverse, fst_zip by lia. rewrite reverse_Permutation. exact Hnd.
  - apply elem_of_reverse. apply list_elem_of_lookup_2 with j.
    apply lookup_zip_Some. split; assumption.
Qed.

Lemma outputs_of_absent (ns : list string) (os : list StepOutput) (n : string) :
  length ns = length os -> n ∉ ns -> outputs_of ns os !! n = None.
Proof.
  intros Hl Hn. unfold outputs_of. apply not_elem_of_list_to_map_1.
  rewrite fmap_reverse, fst_zip by lia. rewrite elem_of_reverse. exact Hn.
Qed.

(** What a run of the step loop does, step by step: each step that ran
    received the outputs recorded so far, and the loop stops at the first
    throw. *)
Lemma run_steps_trace (e : Env) (inputs : gmap string StepInput) (d : string) (total : nat)
    (steps : list Step) :
  forall index st ns os st' r,
  length ns = length os ->
  ps_outputs st = outputs_of ns os ->
  run_steps e inputs d total index steps st = (st', r) ->
  exists k outs,
    k <= length steps /\ length outs = k /\
    (forall i s o, steps !! i = Some s -> outs !! i = Some o ->
       step_process s (step_context inputs d
         (outputs_of (ns ++ take i (map step_name steps)) (os ++ take i outs))) = inr o) /\
    ps_outputs st' = outputs_of (ns ++ take k (map step_name steps)) (os ++ outs) /\
    (r = None -> k = length steps) /\
    (forall err, r = Some err -> exists s, steps !! k = Some s /\
       step_process s (step_context inputs d
         (outputs_of (ns ++ take k (map step_name steps)) (os ++ outs))) = inl err).
Proof.
  induction steps as [|s rest IH]; intros index st ns os st' r Hl Hst Hrun.
  - simpl in Hrun. injection Hrun as <- <-.
    exists 0, []. simpl. rewrite !app_nil_r.
    split; [lia|]. split; [reflexivity|]. split; [intros i s o _ Ho; rewrite lookup_nil in Ho; discriminate|].
    split; [exact Hst|]. split; [reflexivity|]. intros err Herr; discriminate.
  - simpl in Hrun.
    destruct (step_process s _) as [err|o] eqn:Es.
    + injection Hrun as <- <-.
      exists 0, []. simpl. rewrite !app_nil_r.
      split; [lia|]. split; [reflexivity|].
      split; [intros i s' o _ Ho; rewrite lookup_nil in Ho; discriminate|].
      split; [exact Hst|]. split; [discriminate|].
      intros err' Herr. injection Herr as <-. exists s. split; [reflexivity|].
      rewrite <- Hst. exact Es.
    + assert (Hl' : length (ns ++ [step_name s]) = length (os ++ [o])).
      { rewrite !length_app. simpl. lia. }
      assert (Hst' : ps_outputs (complete_step e d s o
                        (add_log (LogStep (S index) total (step_name s)) st))
                     = outputs_of (ns ++ [step_name s]) (os ++ [o])).
      { rewrite complete_step_outputs, outputs_of_snoc by exact Hl. simpl. rewrite Hst. reflexivity. }
      destruct (IH _ _ _ _ _ _ Hl' Hst' Hrun)
        as [k [outs [Hk [Hlen [Hsteps [Hout [Hnone Hsome]]]]]]].
      exists (S k), (o :: outs). simpl.
      split; [lia|]. split; [lia|].
      split.
      * intros [|i] s' o' Hs' Ho'; simpl in Hs', Ho'.
        -- injection Hs' as <-. injection Ho' as <-. rewrite !app_nil_r, <- Hst. exact Es.
        -- rewrite <- Hsteps with i s' o' by assumption.
           rewrite <- !app_assoc. reflexivity.
      * split; [rewrite Hout, <- !app_assoc; reflexivity|].
        split; [intros Hr; rewrite (Hnone Hr); reflexivity|].
        intros err Herr. destruct (Hsome err Herr) as [s' [Hs' Hp]].
        exists s'. split; [exact Hs'|]. rewrite <- !app_assoc in Hp. exact Hp.
Qed.

Lemma NoDup_take_names (i : nat) (ns : list string) : NoDup ns -> NoDup (take i ns).
Proof.
  intros H. rewrite <- (take_drop i ns) in H. apply NoDup_app in H as [H _]. exact H.
Qed.

Lemma outputs_of_prefix_lookup (ns : list string) (outs : list StepOutput) (k i j : nat)
    (n : string) (o : StepOutput) :
  NoDup ns -> k <= length ns -> length outs = k -> i <= k -> j < i ->
  ns !! j = Some n -> outs !! j = Some o ->
  outputs_of (take i ns) (take i outs) !! n = Some o.
Proof.
  intros Hnd Hk Hl Hi Hj Hn Ho. apply outputs_of_lookup with j.
  - apply NoDup_take_names. exact Hnd.
  - rewrite !length_take. lia.
  - rewrite lookup_take_lt by lia. exact Hn.
  - rewrite lookup_take_lt by lia. exact Ho.
Qed.

Lemma outputs_of_prefix_absent (ns : list string) (outs : list StepOutput) (k i : nat) (n : string) :
  k <= length ns -> length outs = k -> i <= k -> n ∉ take i ns ->
  outputs_of (take i ns) (take i outs) !! n = None.
Proof.
  intros Hk Hl Hi Hn. apply outputs_of_absent; [rewrite !length_take; lia | exact Hn].
Qed.

(** C2: in a run of a fresh pipeline (as the [build] command creates one)
    whose steps have pairwise distinct names, there is a number [k] of
    completed steps and their outputs [outs] such that the i-th step ran
    on the context whose [previousOutputs] map holds exactly the outputs
    of the steps before it, under their names, whether or not those steps
    declared an output file; the map only grows, and the pipeline keeps the
    outputs of all [k] steps. A run without error completes every step. *)
Theorem C2_context_accumulates (e : Env) (cfg : PipelineConfig) (files : gmap string string)
    (clock : nat) (p' : Pipeline) (st : PState) (r : option js_error) :
  NoDup (map step_name (cfg_steps cfg)) ->
  Pipeline_run e (new_Pipeline cfg) files clock = (p', st, r) ->
  exists k outs inputs outputDir,
    k <= length (cfg_steps cfg) /\ length outs = k /\
    (forall i s o, cfg_steps cfg !! i = Some s -> outs !! i = Some o ->
       step_process s (step_context inputs outputDir
         (outputs_of (take i (map step_name (cfg_steps cfg))) (take i outs))) = inr o) /\
    pl_outputs p' = outputs_of (take k (map step_name (cfg_steps cfg))) outs /\
    ps_outputs st = pl_outputs p' /\
    (forall i j n o, i <= k -> j < i ->
       map step_name (cfg_steps cfg) !! j = Some n -> outs !! j = Some o ->
       outputs_of (take i (map step_name (cfg_steps cfg))) (take i outs) !! n = Some o) /\
    (forall i n, i <= k -> n ∉ take i (map step_name (cfg_steps cfg)) ->
       outputs_of (take i (map step_name (cfg_steps cfg))) (take i outs) !! n = None) /\
    (r = None -> k = length (cfg_steps cfg)).
Proof.
  intros Hnd H. unfold Pipeline_run, new_Pipeline in H. cbn [pl_config pl_outputs] in H.
  cbv zeta in H.
  lazymatch type of H with
  | (match ?L with inl _ => _ | inr _ => _ end) = _ => destruct L as [err|inputs]
  end.
  - injection H as <- <- <-.
    exists 0, [], ∅, "". simpl.
    split; [lia|]. split; [reflexivity|].
    split; [intros i s o _ Ho; rewrite lookup_nil in Ho; discriminate|].
    split; [reflexivity|]. split; [reflexivity|].
    split; [intros i j n o Hi Hj; lia|].
    split; [intros i n Hi _; replace i with 0 by lia; reflexivity|]. discriminate.
  - set (outputDir := env_resolve e (default "oax" (truthy_str (cfg_outputDir cfg)))) in H.
    destruct (run_steps e inputs outputDir (length (cfg_steps cfg)) 0 (cfg_steps cfg) _)
      as [stf rf] eqn:Hrun.
    assert (Hst : ps_outputs st = ps_outputs stf /\ rf = r /\
                  p' = {| pl_config := cfg; pl_outputs := ps_outputs stf |}).
    { destruct rf; injection H as <- <- <-; repeat split; reflexivity. }
    destruct Hst as [Hps [<- ->]].
    eapply (run_steps_trace e inputs outputDir _ (cfg_steps cfg) 0 _ [] []) in Hrun;
      [|reflexivity|reflexivity].
    destruct Hrun
      as [k [outs [Hk [Hlen [Hsteps [Hout [Hnone _]]]]]]].
    simpl in Hsteps, Hout.
    assert (Hk' : k <= length (map step_name (cfg_steps cfg))) by (rewrite length_map; exact Hk).
    exists k, outs, inputs, outputDir.
    split; [exact Hk|]. split; [exact Hlen|].
    split; [exact Hsteps|].
    split; [simpl; exact Hout|]. split; [simpl; exact Hps|].
    split; [intros i j n o Hi Hj Hn Ho;
            exact (outputs_of_prefix_lookup _ outs k i j n o Hnd Hk' Hlen Hi Hj Hn Ho)|].
    split; [intros i n Hi Hn; exact (outputs_of_prefix_absent _ outs k i n Hk' Hlen Hi Hn)|].
    exact Hnone.
Qed.

Lemma C2_context_accumulates_witness :
  NoDup (map step_name [ex_s1; ex_s2; ex_s3]) /\
  exists k outs, k = 3 /\ length outs = 3 /\
    forall o, outs !! 0 = Some o ->
      outputs_of (take 2 ["s1"; "s2"; "s3"]) (take 2 outs) !! "s1" = Some o.
Proof.
  assert (Hnd : NoDup (map step_name [ex_s1; ex_s2; ex_s3])).
  { apply (bool_decide_unpack _). vm_compute. reflexivity. }
  split; [exact Hnd|].
  destruct (C2_context_accumulates ex_env (ex_cfg [ex_s1; ex_s2; ex_s3]) ∅ 0
              (Pipeline_run ex_env (new_Pipeline (ex_cfg [ex_s1; ex_s2; ex_s3])) ∅ 0).1.1
              (Pipeline_run ex_env (new_Pipeline (ex_cfg [ex_s1; ex_s2; ex_s3])) ∅ 0).1.2
              (Pipeline_run ex_env (new_Pipeline (ex_cfg [ex_s1; ex_s2; ex_s3])) ∅ 0).2
              Hnd ltac:(rewrite <- !surjective_pairing; reflexivity))
    as [k [outs [inputs [outputDir [Hk [Hlen [_ [_ [_ [Hlook [_ Hnone]]]]]]]]]]].
  assert (Hk3 : k = 3) by (apply Hnone; vm_compute; reflexivity).
  exists k, outs. split; [exact Hk3|]. split; [rewrite Hlen; exact Hk3|].
  intros o Ho. apply (Hlook 2 0 "s1" o); [lia | lia | reflexivity | exact Ho].
Defined.




(** ** Dependency checks *)

(** C9 (counterexample): a validator step whose input entry exists but
    whose content is absent does not fail: it proceeds to generation from
    the entry's metadata. *)
Lemma C9_contentless_entry_proceeds :
  validatorPipeline_process None (fun _ => inr (ex_output "V"))
    (ctx_with "zod-generator" contentless_zod_output)
  = inr (ex_output "V").
Proof. vm_compute. reflexivity. Qed.

(** C9, as the code behaves: the Zod step fails with
    [No output found from step "<name>". ...] as soon as the content under
    its input name is missing or falsy; the validator step fails with that
    message when the entry is missing, and otherwise checks only its
    metadata: it fails with [No operations found in step "<name>". ...]
    when [meta.operations] is missing or falsy and proceeds otherwise,
    whatever the entry's content. *)
Theorem C9_missing_dependency (inputStepOpt : option string)
    (generate : jsval -> js_error + StepOutput) (ctx : StepContext) :
  (truthy (previous_content ctx (default "oas-parser" (truthy_str inputStepOpt))) = false ->
   zodGenerator_process inputStepOpt generate ctx
   = inl (no_output_message (default "oas-parser" (truthy_str inputStepOpt))
            "Make sure the OAS parser step runs before this step.")) /\
  (ctx_previousOutputs ctx !! default "zod-generator" (truthy_str inputStepOpt) = None ->
   validatorPipeline_process inputStepOpt generate ctx
   = inl (no_output_message (default "zod-generator" (truthy_str inputStepOpt))
            "Make sure the Zod generator step runs before this step.")) /\
  (forall o, ctx_previousOutputs ctx !! default "zod-generator" (truthy_str inputStepOpt) = Some o ->
   let operations := match so_meta o with
                     | Some m => default JUndef (assoc "operations" m)
                     | None => JUndef
                     end in
   validatorPipeline_process inputStepOpt generate ctx
   = if truthy operations then generate operations
     else inl ("No operations found in step " +:+ dq
               +:+ default "zod-generator" (truthy_str inputStepOpt) +:+ dq
               +:+ ". Make sure the Zod generator includes operations.")).
Proof.
  split; [|split].
  - intros H. unfold zodGenerator_process. cbv zeta. rewrite H. reflexivity.
  - intros H. unfold validatorPipeline_process. cbv zeta. rewrite H. reflexivity.
  - intros o H operations. unfold validatorPipeline_process. cbv zeta. rewrite H.
    subst operations. destruct (truthy _); reflexivity.
Qed.

Lemma C9_missing_dependency_witness :
  zodGenerator_process None (fun _ => inr (ex_output "Z")) (step_context ∅ "/work/oax" ∅)
  = inl (no_output_message "oas-parser" "Make sure the OAS parser step runs before this step.") /\
  validatorPipeline_process None (fun _ => inr (ex_output "V")) (step_context ∅ "/work/oax" ∅)
  = inl (no_output_message "zod-generator" "Make sure the Zod generator step runs before this step.") /\
  validatorPipeline_process None (fun _ => inr (ex_output "V"))
    (ctx_with "zod-generator" contentless_zod_output)
  = inr (ex_output "V").
Proof.
  destruct (C9_missing_dependency None (fun _ => inr (ex_output "Z"))
              (step_context ∅ "/work/oax" ∅)) as [Hz _].
  destruct (C9_missing_dependency None (fun _ => inr (ex_output "V"))
              (step_context ∅ "/work/oax" ∅)) as [_ [Hv _]].
  destruct (C9_missing_dependency None (fun _ => inr (ex_output "V"))
              (ctx_with "zod-generator" contentless_zod_output)) as [_ [_ Hc]].
  split; [apply Hz; reflexivity|]. split; [apply Hv; reflexivity|].
  rewrite (Hc contentless_zod_output); reflexivity.
Defined.

(** ** Extra properties of the translator *)

(** Induction over schemas, through all direct sub-schemas. *)
Lemma schema_children_ind (P : schema -> Prop)
    (H : forall s, Forall P (children s) -> P s) : forall s, P s.
Proof.
  fix IH 1. intros s. apply H.
  destruct s as [a0 a1 a2 a3 a4 a5 a6 a7 a8 a9 a10 a11 a12 a13 a14 a15 a16 a17 a18 a19 a20
                 a21 a22 a23 a24 a25 a26].
  unfold children; simpl.
  repeat apply Forall_app_2.
  - destruct a1 as [l|]; simpl; [|constructor].
    revert l. fix go 1. intros [|x l]; constructor; [apply IH | apply go].
  - destruct a2 as [l|]; simpl; [|constructor].
    revert l. fix go 1. intros [|x l]; constructor; [apply IH | apply go].
  - destruct a3 as [l|]; simpl; [|constructor].
    revert l. fix go 1. intros [|x l]; constructor; [apply IH | apply go].
  - destruct a17 as [x|]; constructor; [apply IH | constructor].
  - destruct a21 as [l|]; simpl; [|constructor].
    revert l. fix go 1. intros [|[n x] l]; simpl; constructor; [apply IH | apply go].
  - destruct a23 as [[b|v]|]; simpl; repeat constructor. apply IH.
Qed.

(** The dispatch of [generateBaseZodSchema]: arrays and objects go to their
    generators, every other type yields a fragment. *)
Lemma generateBaseZodSchema_shape (tr : schema -> option string) (s : schema) :
  (s_type s = Some "array" /\ generateBaseZodSchema tr s = generateArraySchema tr s) \/
  (s_type s = Some "object" /\ generateBaseZodSchema tr s = generateObjectSchema tr s) \/
  (s_type s <> Some "array" /\ s_type s <> Some "object" /\
   exists c, generateBaseZodSchema tr s = Some c).
Proof.
  unfold generateBaseZodSchema.
  destruct (s_type s) as [t|]; [|right; right; split; [discriminate|]; split; [discriminate|eauto]].
  destruct (String.eqb_spec t "array") as [->|Ha]; [left; split; reflexivity|].
  destruct (String.eqb_spec t "object") as [->|Ho]; [right; left; split; reflexivity|].
  right; right. split; [congruence|]. split; [congruence|].
  repeat match goal with
         | |- context [match ?x with _ => _ end] => is_var x; destruct x
         end;
  solve [eauto | exfalso; apply Ha; reflexivity | exfalso; apply Ho; reflexivity].
Qed.

Lemma map_opt_None_iff {A B} (f : A -> option B) (g : A -> bool) (l : list A) :
  Forall (fun x => f x = None <-> g x = true) l ->
  (map_opt f l = None <-> existsb g l = true).
Proof.
  induction 1 as [|x l Hx Hl IH]; simpl; [split; discriminate|].
  destruct (f x) as [y|] eqn:E.
  - assert (g x = false) as -> by (destruct (g x) eqn:G; [pose proof (proj2 Hx eq_refl); discriminate|reflexivity]).
    simpl. rewrite <- IH. destruct (map_opt f l); split; congruence.
  - assert (g x = true) as -> by (apply Hx; reflexivity). split; reflexivity.
Qed.

Lemma map_opt_length {A B} (f : A -> option B) (l : list A) (ys : list B) :
  map_opt f l = Some ys -> length ys = length l.
Proof.
  revert ys. induction l as [|x l IH]; simpl; intros ys H; [injection H as <-; reflexivity|].
  destruct (f x); [|discriminate]. destruct (map_opt f l) as [zs|]; [|discriminate].
  injection H as <-. simpl. rewrite (IH zs eq_refl). reflexivity.
Qed.

Lemma translate_None_iff (s : schema) :
  generateZodCodeFromSchema s = None <-> reaches_empty_allOf s = true.
Proof.
  revert s. apply schema_children_ind. intros s IH.
  destruct s as [a0 a1 a2 a3 a4 a5 a6 a7 a8 a9 a10 a11 a12 a13 a14 a15 a16 a17 a18 a19 a20
                 a21 a22 a23 a24 a25 a26].
  unfold children in IH. cbn [s_allOf s_anyOf s_oneOf s_items s_properties
                             s_additionalProperties] in IH.
  apply Forall_app in IH as [IH1 IH]. apply Forall_app in IH as [IH2 IH].
  apply Forall_app in IH as [IH3 IH]. apply Forall_app in IH as [IH17 IH].
  apply Forall_app in IH as [IH21 IH23].
  cbn [generateZodCodeFromSchema reaches_empty_allOf s_ref s_allOf s_anyOf s_oneOf
       s_discriminator s_nullable s_type].
  destruct a0 as [r|]; [split; discriminate|].
  destruct a1 as [[|x l]|].
  { split; reflexivity. }
  { simpl in IH1. rewrite <- (map_opt_None_iff _ _ _ IH1).
    destruct (map_opt generateZodCodeFromSchema (x :: l)) as [ys|] eqn:E; [|split; reflexivity].
    apply map_opt_length in E. destruct ys as [|y [|y' ys]]; simpl in E; try discriminate;
      split; discriminate. }
  destruct a2 as [l|].
  { simpl in IH2. rewrite <- (map_opt_None_iff _ _ _ IH2).
    destruct (map_opt generateZodCodeFromSchema l); split; congruence. }
  destruct a3 as [l|].
  { simpl in IH3. rewrite <- (map_opt_None_iff _ _ _ IH3).
    destruct (map_opt generateZodCodeFromSchema l); [|split; reflexivity].
    destruct a4; split; discriminate. }
  set (s := Schema None None None None a4 a5 a6 a7 a8 a9 a10 a11 a12 a13 a14 a15 a16 a17 a18 a19
              a20 a21 a22 a23 a24 a25 a26).
  destruct (generateBaseZodSchema_shape generateZodCodeFromSchema s)
    as [[Ht Hg]|[[Ht Hg]|[Ht1 [Ht2 [c Hc]]]]]; simpl in *.
  - subst a6. rewrite Hg. unfold generateArraySchema. simpl.
    destruct a17 as [it|]; simpl; [|split; discriminate].
    inversion IH17 as [|? ? Hit]; subst.
    destruct (generateZodCodeFromSchema it) eqn:E; rewrite <- Hit; split; congruence.
  - subst a6. rewrite Hg. unfold generateObjectSchema. simpl.
    destruct a21 as [props|]; simpl.
    + simpl in IH21.
      assert (Hp : map_opt (fun '(name, prop) =>
                      zodCode <- generateZodCodeFromSchema prop;
                      Some (property_entry s name prop zodCode)) props = None <->
                   existsb (fun '(_, p) => reaches_empty_allOf p) props = true).
      { clear -IH21. induction props as [|[n p] props IHp]; simpl; [split; discriminate|].
        inversion IH21 as [|? ? Hp Hr]; subst.
        destruct (generateZodCodeFromSchema p) eqn:E.
        - assert (reaches_empty_allOf p = false) as ->
            by (destruct (reaches_empty_allOf p) eqn:G; [pose proof (proj2 Hp eq_refl); discriminate|reflexivity]).
          simpl. rewrite <- (IHp Hr). destruct (map_opt _ props); split; congruence.
        - assert (reaches_empty_allOf p = true) as -> by (apply Hp; reflexivity).
          split; reflexivity. }
      rewrite <- Hp. destruct (map_opt _ props); split; congruence.
    + destruct a23 as [[[]|v]|]; simpl; try (split; discriminate).
      inversion IH23 as [|? ? Hv]; subst.
      destruct (generateZodCodeFromSchema v); rewrite <- Hv; split; congruence.
  - rewrite Hc.
    destruct a6 as [t|]; [|split; discriminate].
    destruct (String.eqb_spec t "array"); [congruence|].
    destruct (String.eqb_spec t "object"); [congruence|].
    split; discriminate.
Qed.

(** Translation throws (a [TypeError] from [reduce] on an empty array)
    exactly when the walk of [generateZodCodeFromSchema] reaches an [allOf]
    with no member: through [allOf], [anyOf] and [oneOf] members, array
    [items], object [properties] and, for objects without [properties], an
    [additionalProperties] schema, and never past a [$ref]. *)
Theorem translate_throws_iff (s : schema) :
  generateZodCodeFromSchema s = None <-> reaches_empty_allOf s = true.
Proof. exact (translate_None_iff s). Qed.

(** Keyword precedence of [generateZodCodeFromSchema]: a [$ref] node is
    translated from its reference alone, else an [allOf] node from its
    members alone, else [anyOf], else [oneOf] (with its discriminator);
    [type], [nullable], constraints and every other keyword of such a node
    are ignored. *)
Theorem translate_keyword_precedence (s : schema) :
  generateZodCodeFromSchema s = generateZodCodeFromSchema (deciding_part s).
Proof.
  destruct s as [a0 a1 a2 a3 a4 a5 a6 a7 a8 a9 a10 a11 a12 a13 a14 a15 a16 a17 a18 a19 a20
                 a21 a22 a23 a24 a25 a26].
  unfold deciding_part; cbn [s_ref s_allOf s_anyOf s_oneOf s_discriminator].
  destruct a0; [reflexivity|]. destruct a1; [reflexivity|].
  destruct a2; [reflexivity|]. destruct a3; reflexivity.
Qed.

Lemma last_segment_acc_no_slash (acc y : string) :
  no_slash y = true -> last_segment_acc acc y = acc +:+ y.
Proof.
  revert acc. induction y as [|c y IH]; intros acc H; simpl in *.
  - rewrite sappend_nil_r. reflexivity.
  - apply andb_prop in H as [Hc H]. destruct (Ascii.eqb c "/"); [discriminate|].
    rewrite IH by exact H. rewrite sappend_assoc. reflexivity.
Qed.

Lemma last_segment_acc_slash (acc x y : string) :
  last_segment_acc acc (x +:+ String "/" y) = last_segment_acc "" y.
Proof.
  revert acc. induction x as [|c x IH]; intros acc; simpl; [reflexivity|].
  destruct (Ascii.eqb c "/"); apply IH.
Qed.

(** A reference [prefix/name] with no [/] in [name] translates to [name],
    the last path segment, with no check that the name exists; a
    reference ending in [/] translates to [z.any()]. *)
Theorem translate_ref_last_segment (s : schema) (prefix name : string) :
  s_ref s = Some (prefix +:+ String "/" name) -> no_slash name = true ->
  generateZodCodeFromSchema s = Some (if String.eqb name "" then "z.any()" else name).
Proof.
  intros Hr Hn. destruct s; simpl in *. rewrite Hr. unfold last_segment.
  rewrite last_segment_acc_slash, last_segment_acc_no_slash by exact Hn. reflexivity.
Qed.

Lemma translate_ref_last_segment_witness :
  generateZodCodeFromSchema (with_ref (Some "#/components/schemas/Pet") empty_schema) = Some "Pet" /\
  generateZodCodeFromSchema (with_ref (Some "#/components/schemas/") empty_schema) = Some "z.any()".
Proof.
  split.
  - exact (translate_ref_last_segment (with_ref (Some "#/components/schemas/Pet") empty_schema)
             "#/components/schemas" "Pet" eq_refl eq_refl).
  - exact (translate_ref_last_segment (with_ref (Some "#/components/schemas/") empty_schema)
             "#/components/schemas" "" eq_refl eq_refl).
Defined.

Lemma escape_pattern_body_ok (p : string) : regex_body_ok (escape_pattern p) = true.
Proof.
  induction p as [|c p IH]; [reflexivity|]. simpl.
  destruct (Ascii.eqb c "\") eqn:E1; [exact IH|].
  destruct (Ascii.eqb c "/") eqn:E2; [exact IH|]. simpl. rewrite E1, E2. exact IH.
Qed.

Lemma unescape_escape_length (p : string) :
  String.length (unescape_slashes (escape_pattern p)) = String.length p + count_char "\" p.
Proof.
  induction p as [|c p IH]; [reflexivity|]. simpl.
  destruct (Ascii.eqb c "\") eqn:E1; simpl; [rewrite IH; lia|].
  destruct (Ascii.eqb c "/") eqn:E2; simpl; [rewrite IH; lia|].
  rewrite E1. simpl. rewrite IH. lia.
Qed.

Lemma count_char_zero (p : string) : count_char "\" p = 0 -> no_backslash p = true.
Proof.
  induction p as [|c p IH]; simpl; [reflexivity|].
  destruct (Ascii.eqb c "\"); simpl; [lia|]. exact IH.
Qed.

(** The [pattern] escaping of [generateStringSchema] always yields a regex
    literal body that does not close early (every [/] escaped, no dangling
    backslash), and that body, read with [\/] as [/], is the pattern itself
    exactly when the pattern has no backslash: every backslash is doubled,
    so an escape such as [\d] in the pattern ends up matching a literal
    backslash. *)
Theorem escape_pattern_regex_literal (p : string) :
  regex_body_ok (escape_pattern p) = true /\
  (unescape_slashes (escape_pattern p) = p <-> no_backslash p = true).
Proof.
  split; [apply escape_pattern_body_ok|]. split.
  - intros H. apply count_char_zero.
    pose proof (unescape_escape_length p) as L. rewrite H in L. lia.
  - induction p as [|c p IH]; simpl; [reflexivity|]. intros H.
    apply andb_prop in H as [Hc H]. destruct (Ascii.eqb c "\") eqn:E1; [discriminate|].
    destruct (Ascii.eqb c "/") eqn:E2.
    + apply Ascii.eqb_eq in E2. subst c. simpl. rewrite (IH H). reflexivity.
    + simpl. rewrite E1, (IH H). reflexivity.
Qed.

(** The formats [date-time], [email], [uri] and [url] return a fixed
    fragment at once: [minLength], [maxLength] and [pattern] of such a
    string schema are dropped. *)
Theorem string_format_short_circuit (s : schema) (fmt : string) :
  s_enum s = None -> truthy_str (s_format s) = Some fmt ->
  In fmt ["date-time"; "email"; "uri"; "url"] ->
  In (generateStringSchema s) ["z.iso.datetime()"; "z.email()"; "z.url()"] /\
  forall a b c, generateStringSchema (with_minLength a (with_maxLength b (with_pattern c s)))
                = generateStringSchema s.
Proof.
  intros He Hf Hin. destruct s. unfold generateStringSchema.
  cbn [with_minLength with_maxLength with_pattern s_enum s_format] in *. rewrite He, Hf.
  destruct Hin as [<-|[<-|[<-|[<-|[]]]]]; cbn; (split; [tauto | reflexivity]).
Qed.

Lemma string_format_short_circuit_witness :
  In (generateStringSchema (with_format (Some "email") (with_minLength (Some n5) string_schema)))
     ["z.iso.datetime()"; "z.email()"; "z.url()"] /\
  generateStringSchema (with_minLength None (with_maxLength None (with_pattern None
      (with_format (Some "email") (with_minLength (Some n5) string_schema)))))
  = generateStringSchema (with_format (Some "email") (with_minLength (Some n5) string_schema)).
Proof.
  destruct (string_format_short_circuit
              (with_format (Some "email") (with_minLength (Some n5) string_schema)) "email"
              eq_refl eq_refl ltac:(simpl; tauto)) as [H1 H2].
  split; [exact H1 | apply H2].
Defined.

(** When an object schema has [properties], the schema form of
    [additionalProperties] is never translated: any two such schemas give
    the same result (the marker comment only), even one whose own
    translation would throw. *)
Theorem additionalProperties_schema_ignored (s v v' : schema) (props : list (string * schema)) :
  s_properties s = Some props ->
  generateZodCodeFromSchema (with_additionalProperties (Some (inr v)) s)
  = generateZodCodeFromSchema (with_additionalProperties (Some (inr v')) s).
Proof.
  intros Hp. destruct s; simpl in *; subst s_properties0. reflexivity.
Qed.

Lemma additionalProperties_schema_ignored_witness :
  generateZodCodeFromSchema
    (with_additionalProperties (Some (inr (with_allOf (Some []) empty_schema)))
       (with_properties (Some [("a", string_schema)]) (with_type (Some "object") empty_schema)))
  = generateZodCodeFromSchema
    (with_additionalProperties (Some (inr string_schema))
       (with_properties (Some [("a", string_schema)]) (with_type (Some "object") empty_schema))) /\
  generateZodCodeFromSchema
    (with_additionalProperties (Some (inr string_schema))
       (with_properties (Some [("a", string_schema)]) (with_type (Some "object") empty_schema)))
  <> None.
Proof.
  split.
  - exact (additionalProperties_schema_ignored
             (with_properties (Some [("a", string_schema)]) (with_type (Some "object") empty_schema))
             _ _ [("a", string_schema)] eq_refl).
  - vm_compute. discriminate.
Defined.

(** ** Extra properties of the component and operation emitters *)

Lemma generateZodSchemas_filter (cs : list (string * schema)) :
  generateZodSchemas (Some cs) =
  map_opt (fun c => zodCode <- generateZodCodeFromSchema (snd c);
                    Some {| zi_name := fst c; zi_zodCode := zodCode |})
          (List.filter component_kept cs).
Proof.
  unfold component_kept.
  induction cs as [|[n s] cs IH]; [reflexivity|]. simpl in *.
  destruct (s_ref s); simpl; [exact IH|]. rewrite IH. reflexivity.
Qed.

Lemma existsb_filter {A} (f g : A -> bool) (l : list A) :
  existsb g (List.filter f l) = existsb (fun x => f x && g x) l.
Proof.
  induction l as [|x l IH]; simpl; [reflexivity|].
  destruct (f x); simpl; rewrite IH; reflexivity.
Qed.

(** The component emitter keeps the non-reference components, by name and
    in document order, and throws exactly when one of them reaches an
    empty [allOf]. *)
Theorem generateZodSchemas_components (cs : list (string * schema)) :
  (generateZodSchemas (Some cs) = None <->
   existsb (fun c => component_kept c && reaches_empty_allOf (snd c)) cs = true) /\
  (forall infos, generateZodSchemas (Some cs) = Some infos ->
   map zi_name infos = map fst (List.filter component_kept cs)).
Proof.
  rewrite generateZodSchemas_filter. split.
  - rewrite <- existsb_filter. apply map_opt_None_iff.
    apply Forall_forall. intros [n s] _. simpl. rewrite <- translate_None_iff.
    destruct (generateZodCodeFromSchema s); split; congruence.
  - generalize (List.filter component_kept cs) as l.
    induction l as [|[n s] l IH]; simpl; intros infos H; [injection H as <-; reflexivity|].
    destruct (generateZodCodeFromSchema s); [|discriminate].
    destruct (map_opt _ l) as [is|]; [|discriminate].
    injection H as <-. simpl. rewrite (IH is eq_refl). reflexivity.
Qed.

Lemma generateZodSchemas_components_witness :
  generateZodSchemas (Some [("A", string_schema); ("R", with_ref (Some "#/x/B") empty_schema);
                            ("C", number_schema)]) <> None /\
  map zi_name [{| zi_name := "A"; zi_zodCode := "z.string()" |};
               {| zi_name := "C"; zi_zodCode := "z.number()" |}] = ["A"; "C"] /\
  generateZodSchemas (Some [("A", string_schema); ("E", with_allOf (Some []) empty_schema)]) = None.
Proof.
  split; [vm_compute; discriminate|]. split.
  - exact (proj2 (generateZodSchemas_components
                    [("A", string_schema); ("R", with_ref (Some "#/x/B") empty_schema);
                     ("C", number_schema)]) _ eq_refl).
  - apply (proj2 (proj1 (generateZodSchemas_components
                    [("A", string_schema); ("E", with_allOf (Some []) empty_schema)]))).
    reflexivity.
Defined.

Lemma operation_info_fields (pt m : string) (op : OperationObject) (oi : OperationInfo) :
  operation_info pt m op = Some oi ->
  oi_method oi = m /\ oi_path oi = pt /\
  oi_operationId oi = match truthy_str (op_operationId op) with
                      | Some i => i | None => m +:+ strip_non_alnum pt end.
Proof.
  unfold operation_info.
  destruct (extract_parameters _); [|discriminate].
  destruct (extract_requestBody _); [|discriminate].
  destruct (extract_responses _); [|discriminate].
  intros H; injection H as <-. simpl. auto.
Qed.

Lemma path_operations_gen (pt : string) (item : path_item) (ms : list string) (ops : list OperationInfo) :
  map_opt (fun x => x) (omap (fun method =>
    match assoc method item with
    | Some op => Some (operation_info pt method op)
    | None => None
    end) ms) = Some ops ->
  map (fun oi => (oi_path oi, oi_method oi)) ops
  = map (fun m => (pt, m)) (List.filter (fun m => present (assoc m item)) ms).
Proof.
  revert ops. induction ms as [|m ms IH]; simpl; intros ops H; [injection H as <-; reflexivity|].
  destruct (assoc m item) as [op|]; simpl in *; [|exact (IH _ H)].
  destruct (operation_info pt m op) as [oi|] eqn:E; [|discriminate].
  destruct (map_opt _ _) as [os|]; [|discriminate].
  injection H as <-. apply operation_info_fields in E as [Hm [Hp _]].
  simpl. rewrite Hm, Hp, (IH os eq_refl). reflexivity.
Qed.

(** The operation emitter lists operations path by path in document order,
    within a path in the fixed method order get, post, put, delete, patch,
    head, options (whatever the order of the keys in the path item), and
    skips absent path items. *)
Theorem generateOperations_order (oas : Document) (ops : list OperationInfo) :
  generateOperations oas = Some ops ->
  map (fun oi => (oi_path oi, oi_method oi)) ops =
  concat (map (fun '(pt, item) =>
                 match item with
                 | Some it => map (fun m => (pt, m)) (List.filter (fun m => present (assoc m it)) methods)
                 | None => []
                 end) (default [] (doc_paths oas))).
Proof.
  unfold generateOperations. destruct (doc_paths oas) as [ps|]; simpl; intros H;
    [|injection H as <-; reflexivity].
  destruct (map_opt _ ps) as [ls|] eqn:E; [|discriminate]. injection H as <-.
  revert ls E. induction ps as [|[pt [it|]] ps IH]; simpl; intros ls E.
  - injection E as <-. reflexivity.
  - destruct (path_operations pt it) as [o|] eqn:Eo; [|discriminate].
    destruct (map_opt _ ps) as [ls'|]; [|discriminate]. injection E as <-.
    simpl. rewrite map_app, (path_operations_gen pt it methods o Eo), (IH ls' eq_refl). reflexivity.
  - destruct (map_opt _ ps) as [ls'|]; [|discriminate]. injection E as <-.
    simpl. exact (IH ls' eq_refl).
Qed.

Lemma generateOperations_order_witness :
  exists ops, generateOperations ex_doc = Some ops /\
  map (fun oi => (oi_path oi, oi_method oi)) ops =
  [("/pets", "get"); ("/pets", "post"); ("/pets/{id}", "delete")].
Proof.
  eexists. split; [reflexivity|].
  refine (eq_trans (generateOperations_order ex_doc _ eq_refl) _). reflexivity.
Defined.

(** The parameter extractor skips reference parameters and keeps the others
    in order, each with its name and location, [required] defaulting to
    [false] (for the parameter and its schema reference alike) and the
    translation of its schema ([z.any()] when absent). *)
Theorem extract_parameters_fields (ps : list param_or_ref) (infos : list ParameterInfo) :
  extract_parameters ps = Some infos ->
  map (fun pi => (pi_name pi, pi_in pi, pi_required pi, sr_required (pi_schema pi),
                  Some (sr_zodCode (pi_schema pi)))) infos
  = omap (fun p => match p with
                   | ParamRef _ => None
                   | ParamObj po => Some (po_name po, po_in po, default false (po_required po),
                                          default false (po_required po),
                                          generateZodCodeFromOptSchema (po_schema po))
                   end) ps.
Proof.
  unfold extract_parameters. revert infos.
  induction ps as [|[r|po] ps IH]; simpl; intros infos H.
  - injection H as <-. reflexivity.
  - exact (IH _ H).
  - destruct (generateZodCodeFromOptSchema (po_schema po)) as [c|]; [|discriminate].
    destruct (map_opt _ _) as [l|]; [|discriminate].
    injection H as <-. simpl. rewrite (IH l eq_refl). reflexivity.
Qed.

Lemma extract_parameters_fields_witness :
  exists infos,
  extract_parameters [ParamRef "#/components/parameters/Limit";
                      ParamObj {| po_name := "id"; po_in := "path"; po_required := None;
                                  po_schema := None |}] = Some infos /\
  map (fun pi => (pi_name pi, pi_in pi, pi_required pi, sr_required (pi_schema pi),
                  Some (sr_zodCode (pi_schema pi)))) infos
  = [("id", "path", false, false, Some "z.any()")].
Proof.
  eexists. split; [reflexivity|].
  refine (eq_trans (extract_parameters_fields
    [ParamRef "#/components/parameters/Limit";
     ParamObj {| po_name := "id"; po_in := "path"; po_required := None; po_schema := None |}]
    _ eq_refl) _).
  reflexivity.
Defined.

Lemma strip_non_alnum_alnum (p : string) : all_alnum (strip_non_alnum p) = true.
Proof.
  induction p as [|c p IH]; simpl; [reflexivity|].
  destruct (is_alnum c) eqn:E; simpl; [rewrite E|]; exact IH.
Qed.

(** Without a (non-empty) [operationId], an operation is named by its
    method followed by the letters and digits of its path template; every
    other character of the path is dropped. *)
Theorem operationId_fallback (pt m : string) (op : OperationObject) (oi : OperationInfo) :
  truthy_str (op_operationId op) = None -> operation_info pt m op = Some oi ->
  oi_operationId oi = m +:+ strip_non_alnum pt /\ all_alnum (strip_non_alnum pt) = true.
Proof.
  intros Hid H. apply operation_info_fields in H as [_ [_ Hi]]. rewrite Hid in Hi.
  split; [exact Hi | apply strip_non_alnum_alnum].
Qed.

Lemma operationId_fallback_witness :
  exists oi, operation_info "/pets/{petId}" "get" ex_operation = Some oi /\
             oi_operationId oi = "getpetspetId".
Proof.
  eexists. split; [reflexivity|].
  exact (proj1 (operationId_fallback "/pets/{petId}" "get" ex_operation _ eq_refl eq_refl)).
Defined.

(** ** Extra properties of the pipeline engine *)

(** A generated file is the produced text behind a header: the header is
    empty (and the clock unread) for an extension without a comment style,
    and starts with the comment opener otherwise, reading the clock once;
    outputs, files and console are untouched. *)
Theorem addAutogenerationComment_prefix (e : Env) (content ext : string) (st : PState) :
  exists header,
    fst (addAutogenerationComment e content ext st) = header +:+ content /\
    ps_outputs (snd (addAutogenerationComment e content ext st)) = ps_outputs st /\
    ps_files (snd (addAutogenerationComment e content ext st)) = ps_files st /\
    ps_log (snd (addAutogenerationComment e content ext st)) = ps_log st /\
    match getCommentForFileType ext with
    | None => header = "" /\ ps_clock (snd (addAutogenerationComment e content ext st)) = ps_clock st
    | Some (start, _) => (exists rest, header = start +:+ rest) /\
        ps_clock (snd (addAutogenerationComment e content ext st)) = S (ps_clock st)
    end.
Proof.
  unfold addAutogenerationComment.
  destruct (getCommentForFileType ext) as [[start [en|]]|].
  - exists (start +:+ " This file is auto-generated using oax. Do not edit manually." +:+ nl
            +:+ "     Generated on: " +:+ env_timestamp e (ps_clock st) +:+ " " +:+ en +:+ nl +:+ nl).
    simpl. rewrite !sappend_assoc. repeat split. eexists. reflexivity.
  - exists (start +:+ " This file is auto-generated using oax. Do not edit manually." +:+ nl
            +:+ start +:+ " Generated on: " +:+ env_timestamp e (ps_clock st) +:+ nl +:+ nl).
    simpl. rewrite !sappend_assoc. repeat split. eexists. reflexivity.
  - exists "". repeat split.
Qed.

Lemma addAutogenerationComment_prefix_witness :
  fst (addAutogenerationComment ex_env "x" ".md" {| ps_outputs := ∅; ps_files := ∅; ps_log := []; ps_clock := 3 |})
  = "x" /\
  ps_clock (snd (addAutogenerationComment ex_env "x" ".ts"
                   {| ps_outputs := ∅; ps_files := ∅; ps_log := []; ps_clock := 3 |})) = 4.
Proof.
  destruct (addAutogenerationComment_prefix ex_env "x" ".md"
              {| ps_outputs := ∅; ps_files := ∅; ps_log := []; ps_clock := 3 |})
    as [h [Ht [_ [_ [_ [Hh _]]]]]].
  destruct (addAutogenerationComment_prefix ex_env "x" ".ts"
              {| ps_outputs := ∅; ps_files := ∅; ps_log := []; ps_clock := 3 |})
    as [h' [_ [_ [_ [_ [_ Hc]]]]]].
  split; [rewrite Ht, Hh; reflexivity | exact Hc].
Defined.

Lemma complete_step_files (e : Env) (d : string) (s : Step) (o : StepOutput) (st : PState) :
  ps_files (complete_step e d s o st) = ps_files st \/
  exists f c, truthy_str (step_outputFile s) = Some f /\
              ps_files (complete_step e d s o st) = <[env_join e d f := c]> (ps_files st).
Proof.
  unfold complete_step. destruct (truthy_str (step_outputFile s)) as [file|]; [|left; reflexivity].
  right. exists file.
  match goal with |- context [addAutogenerationComment ?e ?c ?x ?st] =>
    pose proof (addAutogenerationComment_outputs e c x st) as [_ Hf];
    destruct (addAutogenerationComment e c x st) as [content st2] end.
  simpl in *. exists content. split; [reflexivity|]. rewrite Hf. reflexivity.
Qed.

Lemma run_steps_files (e : Env) (inputs : gmap string StepInput) (d : string) (total : nat)
    (steps : list Step) :
  forall index st st' r path,
  run_steps e inputs d total index steps st = (st', r) ->
  ps_files st' !! path = ps_files st !! path \/
  (is_Some (ps_files st' !! path) /\
   exists s f, In s steps /\ truthy_str (step_outputFile s) = Some f /\ path = env_join e d f).
Proof.
  induction steps as [|s rest IH]; intros index st st' r path Hrun; simpl in Hrun.
  - injection Hrun as <- <-. left; reflexivity.
  - destruct (step_process s _) as [err|o].
    + injection Hrun as <- <-. left; reflexivity.
    + set (st1 := complete_step e d s o (add_log (LogStep (S index) total (step_name s)) st)) in Hrun.
      assert (H1 : ps_files st1 !! path = ps_files st !! path \/
                   (is_Some (ps_files st1 !! path) /\
                    exists f, truthy_str (step_outputFile s) = Some f /\ path = env_join e d f)).
      { destruct (complete_step_files e d s o (add_log (LogStep (S index) total (step_name s)) st))
          as [Hf|[f [c [Hs Hf]]]]; fold st1 in Hf; rewrite Hf; [left; reflexivity|].
        destruct (decide (path = env_join e d f)) as [->|Hne].
        - right. rewrite lookup_insert_eq. split; [eexists; reflexivity|]. exists f. auto.
        - left. rewrite lookup_insert_ne by congruence. reflexivity. }
      destruct (IH _ _ _ _ path Hrun) as [E|[Hs [s' [f [Hin [Hf Hp]]]]]].
      * rewrite E. destruct H1 as [E1|[Hs1 [f [Hf Hp]]]]; [left; exact E1|].
        right. split; [exact Hs1|]. exists s, f. split; [left; reflexivity|]. auto.
      * right. split; [exact Hs|]. exists s', f. split; [right; exact Hin|]. auto.
Qed.

Lemma Pipeline_run_cases (e : Env) (p : Pipeline) (files : gmap string string) (clock : nat)
    (p' : Pipeline) (st : PState) (r : option js_error) :
  Pipeline_run e p files clock = (p', st, r) ->
  let outputDir := env_resolve e (default "oax" (truthy_str (cfg_outputDir (pl_config p)))) in
  let st0 := {| ps_outputs := pl_outputs p; ps_files := files; ps_log := []; ps_clock := clock |} in
  (p' = p /\ st = st0 /\ r <> None) \/
  exists inputs st2,
    run_steps e inputs outputDir (length (cfg_steps (pl_config p))) 0 (cfg_steps (pl_config p))
      (add_log (LogRunning (length (cfg_steps (pl_config p)))) st0) = (st2, r) /\
    st = (match r with None => add_log (LogDone outputDir) st2 | Some _ => st2 end) /\
    p' = {| pl_config := pl_config p; pl_outputs := ps_outputs st |}.
Proof.
  unfold Pipeline_run. intros H.
  destruct (truthy_str (cfg_input (pl_config p))) as [i|];
    [destruct (env_read_json e (env_resolve e i)) as [err|v]|]; cbv zeta in H;
    [injection H as <- <- <-; left; split; [reflexivity|split; [reflexivity|discriminate]]| |];
    (destruct (run_steps _ _ _ _ _ _ _) as [st2 r2] eqn:E; injection H as <- <- <-;
     right; eexists _, st2; split; [exact E|]; split; reflexivity).
Qed.

(** What [Pipeline.run] does to the files on disk: each file is either left
    as it was or present and at [join(outputDir, outputFile)] for a step
    with a (non-empty) [outputFile]; so no file is ever removed, steps
    without [outputFile] write nothing, and nothing is written outside the
    output paths of the steps. *)
Theorem Pipeline_run_files (e : Env) (p : Pipeline) (files : gmap string string) (clock : nat)
    (p' : Pipeline) (st : PState) (r : option js_error) (path : string) :
  Pipeline_run e p files clock = (p', st, r) ->
  ps_files st !! path = files !! path \/
  (is_Some (ps_files st !! path) /\
   exists s f, In s (cfg_steps (pl_config p)) /\ truthy_str (step_outputFile s) = Some f /\
     path = env_join e (env_resolve e (default "oax" (truthy_str (cfg_outputDir (pl_config p))))) f).
Proof.
  intros H. destruct (Pipeline_run_cases _ _ _ _ _ _ _ H) as [[_ [-> _]]|[inputs [st2 [E [-> _]]]]];
    [left; reflexivity|].
  assert (Hl : forall x, ps_files (match r with None => add_log x st2 | Some _ => st2 end)
                         = ps_files st2) by (destruct r; reflexivity).
  rewrite Hl. exact (run_steps_files _ _ _ _ _ _ _ _ _ path E).
Qed.

Lemma Pipeline_run_files_witness :
  let '(p', st, r) := Pipeline_run ex_env (new_Pipeline (ex_cfg [ex_s1; ex_s2])) ∅ 0 in
  ps_files st !! "/work/oax/a.ts" = (∅ : gmap string string) !! "/work/oax/a.ts" \/
  (is_Some (ps_files st !! "/work/oax/a.ts") /\
   exists s f, In s [ex_s1; ex_s2] /\ truthy_str (step_outputFile s) = Some f /\
     "/work/oax/a.ts" = env_join ex_env (env_resolve ex_env "oax") f).
Proof.
  destruct (Pipeline_run ex_env (new_Pipeline (ex_cfg [ex_s1; ex_s2])) ∅ 0) as [[p' st] r] eqn:E.
  exact (Pipeline_run_files _ _ _ _ _ _ _ "/work/oax/a.ts" E).
Defined.

Lemma run_steps_outputs_other (e : Env) (inputs : gmap string StepInput) (d : string) (total : nat)
    (steps : list Step) :
  forall index st st' r n,
  run_steps e inputs d total index steps st = (st', r) ->
  n ∉ map step_name steps ->
  ps_outputs st' !! n = ps_outputs st !! n.
Proof.
  induction steps as [|s rest IH]; intros index st st' r n Hrun Hn; simpl in Hrun.
  - injection Hrun as <- <-. reflexivity.
  - destruct (step_process s _) as [err|o].
    + injection Hrun as <- <-. reflexivity.
    + simpl in Hn. apply not_elem_of_cons in Hn as [Hne Hn].
      rewrite (IH _ _ _ _ n Hrun Hn), complete_step_outputs, lookup_insert_ne by congruence.
      reflexivity.
Qed.

(** The [outputs] of a [Pipeline] instance persist across its runs: after
    [run], every entry whose name is not the name of a configured step is
    the one from before the run, so a second run of the same instance
    starts with (and passes to its steps) the outputs of the first. *)
Theorem Pipeline_run_keeps_outputs (e : Env) (p : Pipeline) (files : gmap string string) (clock : nat)
    (p' : Pipeline) (st : PState) (r : option js_error) (n : string) :
  Pipeline_run e p files clock = (p', st, r) ->
  n ∉ map step_name (cfg_steps (pl_config p)) ->
  pl_outputs p' !! n = pl_outputs p !! n.
Proof.
  intros H Hn.
  destruct (Pipeline_run_cases _ _ _ _ _ _ _ H) as [[-> _]|[inputs [st2 [E [-> ->]]]]];
    [reflexivity|]. simpl.
  assert (Hl : forall x, ps_outputs (match r with None => add_log x st2 | Some _ => st2 end)
                         = ps_outputs st2) by (destruct r; reflexivity).
  rewrite Hl, (run_steps_outputs_other _ _ _ _ _ _ _ _ _ n E Hn). reflexivity.
Qed.

Lemma Pipeline_run_keeps_outputs_witness :
  let p := {| pl_config := ex_cfg [ex_s1]; pl_outputs := {[ "old" := ex_output "X" ]} |} in
  let '(p', st, r) := Pipeline_run ex_env p ∅ 0 in
  pl_outputs p' !! "old" = Some (ex_output "X").
Proof.
  cbv zeta.
  destruct (Pipeline_run ex_env {| pl_config := ex_cfg [ex_s1]; pl_outputs := {[ "old" := ex_output "X" ]} |}
              ∅ 0) as [[p' st] r] eqn:E.
  change (pl_outputs p' !! "old" = Some (ex_output "X")).
  rewrite (Pipeline_run_keeps_outputs _ _ _ _ _ _ _ "old" E).
  - reflexivity.
  - simpl. intros Hin. apply list_elem_of_singleton in Hin. discriminate.
Defined.

Lemma truthy_str_idem (o : option string) : truthy_str (truthy_str o) = truthy_str o.
Proof.
  destruct o as [x|]; simpl; [|reflexivity].
  destruct (String.eqb x "") eqn:E; simpl; [reflexivity|]. rewrite E. reflexivity.
Qed.

Lemma truthy_str_default_oax (o : option string) :
  truthy_str (Some (default "oax" (truthy_str o))) = Some (default "oax" (truthy_str o)).
Proof.
  destruct o as [x|]; simpl; [|reflexivity].
  destruct (String.eqb x "") eqn:E; simpl; [reflexivity|]. rewrite E. reflexivity.
Qed.

(** Running the configuration normalised by [defineConfig] has the same
    effect as running the configuration itself: the same files, console,
    clock, error and pipeline outputs. *)
Theorem defineConfig_run (e : Env) (c : PipelineConfig) (files : gmap string string) (clock : nat) :
  (Pipeline_run e (new_Pipeline (defineConfig c)) files clock).1.2
    = (Pipeline_run e (new_Pipeline c) files clock).1.2 /\
  (Pipeline_run e (new_Pipeline (defineConfig c)) files clock).2
    = (Pipeline_run e (new_Pipeline c) files clock).2 /\
  pl_outputs (Pipeline_run e (new_Pipeline (defineConfig c)) files clock).1.1
    = pl_outputs (Pipeline_run e (new_Pipeline c) files clock).1.1.
Proof.
  unfold Pipeline_run, new_Pipeline, defineConfig. cbn [pl_config pl_outputs cfg_outputDir cfg_input cfg_steps].
  rewrite truthy_str_default_oax, truthy_str_idem. cbn [default].
  destruct (truthy_str (cfg_input c)) as [i|];
    [destruct (env_read_json e (env_resolve e i)) as [err|v]|]; cbv zeta; [auto| |];
    destruct (run_steps _ _ _ _ _ _ _); auto.
Qed.

Lemma complete_step_log (e : Env) (d : string) (s : Step) (o : StepOutput) (st : PState) :
  exists ev, is_step_log ev = false /\ ps_log (complete_step e d s o st) = ps_log st ++ [ev].
Proof.
  unfold complete_step. destruct (truthy_str (step_outputFile s)) as [file|];
    [|eexists; split; [|reflexivity]; reflexivity].
  match goal with |- context [addAutogenerationComment ?e ?c ?x ?st] =>
    assert (Hl : ps_log (snd (addAutogenerationComment e c x st)) = ps_log st)
      by (unfold addAutogenerationComment;
          destruct (getCommentForFileType x) as [[a [b|]]|]; reflexivity);
    destruct (addAutogenerationComment e c x st) as [content st2] end.
  simpl in *. eexists. split; [|rewrite Hl; reflexivity]. reflexivity.
Qed.

Lemma run_steps_log_success (e : Env) (inputs : gmap string StepInput) (d : string) (total : nat)
    (steps : list Step) :
  forall index st st',
  run_steps e inputs d total index steps st = (st', None) ->
  (exists l, ps_log st' = ps_log st ++ l) /\
  List.filter is_step_log (ps_log st') =
  List.filter is_step_log (ps_log st)
  ++ zip_with (fun i s => LogStep i total (step_name s)) (seq (S index) (length steps)) steps.
Proof.
  induction steps as [|s rest IH]; intros index st st' Hrun; simpl in Hrun.
  - injection Hrun as <-. split; [exists []|]; rewrite app_nil_r; reflexivity.
  - destruct (step_process s _) as [err|o]; [discriminate|].
    destruct (IH _ _ _ Hrun) as [[l Hl] Hf].
    destruct (complete_step_log e d s o (add_log (LogStep (S index) total (step_name s)) st))
      as [ev [Hev Hc]].
    rewrite Hc in Hl, Hf. simpl in Hl, Hf.
    split.
    + exists ([LogStep (S index) total (step_name s)] ++ [ev] ++ l).
      rewrite Hl, <- !app_assoc. reflexivity.
    + rewrite Hf, !List.filter_app. simpl. rewrite Hev, <- !app_assoc. reflexivity.
Qed.

(** The console of a run that completes: it opens with [Running pipeline
    with n steps], its progress lines are exactly [Step 1/n] to [Step n/n]
    with the step names in order, and it closes with the completion line
    naming the output directory. *)
Theorem Pipeline_run_progress_log (e : Env) (p : Pipeline) (files : gmap string string) (clock : nat)
    (p' : Pipeline) (st : PState) :
  Pipeline_run e p files clock = (p', st, None) ->
  let steps := cfg_steps (pl_config p) in
  head (ps_log st) = Some (LogRunning (length steps)) /\
  List.filter is_step_log (ps_log st)
    = zip_with (fun i s => LogStep i (length steps) (step_name s)) (seq 1 (length steps)) steps /\
  last (ps_log st) =
    Some (LogDone (env_resolve e (default "oax" (truthy_str (cfg_outputDir (pl_config p)))))).
Proof.
  intros H. destruct (Pipeline_run_cases _ _ _ _ _ _ _ H) as [[_ [_ Hr]]|[inputs [st2 [E [-> _]]]]];
    [congruence|].
  destruct (run_steps_log_success _ _ _ _ _ _ _ _ E) as [[l Hl] Hf].
  simpl in Hl, Hf |- *. split; [rewrite Hl; reflexivity|]. split.
  - rewrite List.filter_app, Hf. simpl. rewrite app_nil_r. reflexivity.
  - rewrite last_snoc. reflexivity.
Qed.

Lemma Pipeline_run_progress_log_witness :
  let '(p', st, r) := Pipeline_run ex_env (new_Pipeline (ex_cfg [ex_s1; ex_s2])) ∅ 0 in
  r = None /\
  List.filter is_step_log (ps_log st) = [LogStep 1 2 "s1"; LogStep 2 2 "s2"].
Proof.
  assert (Hr : (Pipeline_run ex_env (new_Pipeline (ex_cfg [ex_s1; ex_s2])) ∅ 0).2 = None)
    by reflexivity.
  destruct (Pipeline_run ex_env (new_Pipeline (ex_cfg [ex_s1; ex_s2])) ∅ 0) as [[p' st] r] eqn:E.
  simpl in Hr. subst r. split; [reflexivity|].
  exact (proj1 (proj2 (Pipeline_run_progress_log _ _ _ _ _ _ E))).
Defined.

(** ** Extra properties of the response extractor *)

(** The response extractor skips reference responses and keeps the others
    in the order of their status codes; a description is kept only when
    non-empty, and a schema reference (always [required]) exists exactly
    when the content has an [application/json] schema, with that schema's
    translation as code. *)
Theorem extract_responses_fields (rs : list (string * response_or_ref)) (infos : list ResponseInfo) :
  extract_responses rs = Some infos ->
  map (fun ri => (ri_status ri, ri_description ri, option_map sr_required (ri_schema ri),
                  option_map (fun sc => Some (sr_zodCode sc)) (ri_schema ri))) infos
  = omap (fun '(status, r) =>
            match r with
            | RespRef _ => None
            | RespObj ro => Some (status, truthy_str (ro_description ro),
                                  option_map (fun _ => true) (json_schema (ro_content ro)),
                                  option_map generateZodCodeFromSchema (json_schema (ro_content ro)))
            end) rs.
Proof.
  unfold extract_responses. revert infos.
  induction rs as [|[status [r|ro]] rs IH]; simpl; intros infos H.
  - injection H as <-. reflexivity.
  - exact (IH _ H).
  - destruct (json_schema (ro_content ro)) as [sc|].
    + destruct (generateZodCodeFromSchema sc) as [c|] eqn:Ec; [|discriminate].
      destruct (map_opt _ _) as [l|]; [|discriminate].
      injection H as <-. simpl. rewrite Ec, (IH l eq_refl). reflexivity.
    + destruct (map_opt _ _) as [l|]; [|discriminate].
      injection H as <-. simpl. rewrite (IH l eq_refl). reflexivity.
Qed.

Lemma extract_responses_fields_witness :
  exists infos,
  extract_responses
    [("200", RespObj {| ro_description := Some ""; ro_content := Some [("text/plain", Some string_schema)] |});
     ("404", RespRef "#/components/responses/NotFound");
     ("201", RespObj {| ro_description := Some "ok";
                        ro_content := Some [("application/json", Some string_schema)] |})] = Some infos /\
  map (fun ri => (ri_status ri, ri_description ri, option_map sr_required (ri_schema ri),
                  option_map (fun sc => Some (sr_zodCode sc)) (ri_schema ri))) infos
  = [("200", None, None, None); ("201", Some "ok", Some true, Some (Some "z.string()"))].
Proof.
  eexists. split; [reflexivity|].
  refine (eq_trans (extract_responses_fields
    [("200", RespObj {| ro_description := Some ""; ro_content := Some [("text/plain", Some string_schema)] |});
     ("404", RespRef "#/components/responses/NotFound");
     ("201", RespObj {| ro_description := Some "ok";
                        ro_content := Some [("application/json", Some string_schema)] |})]
    _ eq_refl) _).
  reflexivity.
Defined.
